(** * CartParser: a shallow embedding of [src/CartParser.js]

    The parser reads a CSV shopping cart, validates it against a fixed
    three-column schema and turns the body rows into cart items with a
    rounded total.

    The development has three layers:
    - [JS]: the fragment of the ECMAScript runtime the class relies on
      (strings as sequences of UTF-16 code units, [trim], [split],
      [Number], [toFixed], template literals, IEEE 754 doubles);
    - [CartParser]: the class itself, method by method;
    - the properties of the specification, stated on [CartParser]. *)

From Stdlib Require Import ZArith NArith List String Ascii Bool Lia.
From Stdlib Require Import Permutation Floats DecimalString Sorted.
Import ListNotations.

Set Warnings "-inexact-float".

(* ================================================================== *)
(** * The JavaScript runtime fragment *)
(* ================================================================== *)

Module JS.

(** ** Strings *)

(** A JavaScript string is a finite sequence of UTF-16 code units. *)
Definition code_unit := N.
Definition jsstring := list code_unit.

(** Literals of the source are ASCII; [lit] injects them. *)
Fixpoint lit (s : string) : jsstring :=
  match s with
  | EmptyString => []
  | String c r => N_of_ascii c :: lit r
  end.

Definition jsstring_eq_dec : forall a b : jsstring, {a = b} + {a <> b} :=
  list_eq_dec N.eq_dec.

Definition jsstring_eqb (a b : jsstring) : bool :=
  if jsstring_eq_dec a b then true else false.

Definition LF : code_unit := 10%N.
Definition COMMA : code_unit := 44%N.
Definition QUOTE : code_unit := 34%N.

(** WhiteSpace and LineTerminator code points of ECMA-262 (11.2, 11.3):
    TAB, VT, FF, SP, NBSP, ZWNBSP, the Unicode Zs category, LF, CR, LS, PS. *)
Definition isWhiteSpace (c : code_unit) : bool :=
  (  (c =? 9) || (c =? 10) || (c =? 11) || (c =? 12) || (c =? 13)
  || (c =? 32) || (c =? 160) || (c =? 5760)
  || ((8192 <=? c) && (c <=? 8202))
  || (c =? 8232) || (c =? 8233) || (c =? 8239) || (c =? 8287)
  || (c =? 12288) || (c =? 65279))%N.

Fixpoint trimStart (s : jsstring) : jsstring :=
  match s with
  | [] => []
  | c :: r => if isWhiteSpace c then trimStart r else s
  end.

Definition trimEnd (s : jsstring) : jsstring := rev (trimStart (rev s)).

(** [String.prototype.trim]. *)
Definition trim (s : jsstring) : jsstring := trimEnd (trimStart s).

(** [s.split(/c/)] for a regular expression matching the single code
    unit [c]: the pieces between the occurrences of [c], empty pieces
    included; the empty string gives one empty piece. *)
Fixpoint split (sep : code_unit) (s : jsstring) : list jsstring :=
  match s with
  | [] => [[]]
  | c :: r =>
      if (c =? sep)%N then [] :: split sep r
      else match split sep r with
           | [] => [[c]]
           | p :: ps => (c :: p) :: ps
           end
  end.

(** ** Arrays of strings *)

(** [a[i]] on an array of strings; [None] is the [undefined] that an
    index out of range yields. *)
Definition array_get (a : list jsstring) (i : nat) : option jsstring :=
  nth_error a i.

(** ToBoolean on a string or [undefined]: only the non-empty string is
    truthy. *)
Definition truthy (v : option jsstring) : bool :=
  match v with
  | Some (_ :: _) => true
  | _ => false
  end.

(** A string or [undefined] substituted in a template literal. *)
Definition templateString (v : option jsstring) : jsstring :=
  match v with
  | Some s => s
  | None => lit "undefined"
  end.

(** Strict equality [v === s] of a string or [undefined] with a string. *)
Definition strictEq (v : option jsstring) (s : jsstring) : bool :=
  match v with
  | Some t => jsstring_eqb t s
  | None => false
  end.

(** [Array.prototype.filter] with the element and its index. *)
Fixpoint filteri_from {A} (p : A -> nat -> bool) (i : nat) (l : list A) : list A :=
  match l with
  | [] => []
  | x :: r => if p x i then x :: filteri_from p (S i) r else filteri_from p (S i) r
  end.

Definition filteri {A} (p : A -> nat -> bool) (l : list A) : list A :=
  filteri_from p 0 l.

(** A [for (let i = 0; i < n; i++)] loop over a state. *)
Definition for_range {St} (n : nat) (body : nat -> St -> St) (s : St) : St :=
  fold_left (fun acc i => body i acc) (seq 0 n) s.

(** ** Numbers *)

(** A JavaScript number is an IEEE 754 binary64 value: the primitive
    [float], whose operations round to nearest, ties to even. *)

Definition isNaN (x : float) : bool := PrimFloat.is_nan x.

Definition isDigit (c : code_unit) : bool := ((48 <=? c) && (c <=? 57))%N.

Fixpoint span {A} (p : A -> bool) (l : list A) : list A * list A :=
  match l with
  | [] => ([], [])
  | x :: r => if p x then let (a, b) := span p r in (x :: a, b) else ([], l)
  end.

(** The value of a digit in a radix up to 16, [None] when [c] is no
    digit of that radix. *)
Definition digitIn (radix : Z) (c : code_unit) : option Z :=
  let v := (if isDigit c then Z.of_N c - 48
            else if ((97 <=? c) && (c <=? 102))%N then Z.of_N c - 87
            else if ((65 <=? c) && (c <=? 70))%N then Z.of_N c - 55
            else 16)%Z in
  if (v <? radix)%Z then Some v else None.

Fixpoint digitsValue (radix : Z) (acc : Z) (ds : jsstring) : option Z :=
  match ds with
  | [] => Some acc
  | c :: r => match digitIn radix c with
              | Some v => digitsValue radix (radix * acc + v)%Z r
              | None => None
              end
  end.

(** A non-empty run of digits, read in [radix]. *)
Definition digitString (radix : Z) (ds : jsstring) : option Z :=
  match ds with
  | [] => None
  | _ => digitsValue radix 0%Z ds
  end.

Definition decimalValue (ds : jsstring) : Z :=
  match digitsValue 10%Z 0%Z ds with Some v => v | None => 0%Z end.

(** The Number value of [(-1)^neg * d * 10^k] for [d >= 0]: the exact
    value rounded to the nearest double (ties to even), infinite on
    overflow, a signed zero on underflow. *)
Definition roundDecimal (neg : bool) (d k : Z) : float :=
  match d with
  | Zpos m =>
      if (0 <=? k)%Z
      then SF2Prim (binary_normalize prec emax
                      (if neg then - (d * 10 ^ k) else d * 10 ^ k)%Z 0%Z false)
      else let '(q, e, l) :=
             SFdiv_core_binary prec emax d 0%Z (10 ^ (- k))%Z 0%Z in
           SF2Prim (binary_round_aux prec emax neg q e l)
  | _ => if neg then neg_zero else zero
  end.

(** The mathematical value of a StrUnsignedDecimalLiteral. *)
Inductive mv :=
| MVInfinity
| MVDecimal (d k : Z).

(** ExponentPart, optional: [e] or [E], an optional sign, digits. *)
Definition exponentPart (s : jsstring) : option Z :=
  match s with
  | [] => Some 0%Z
  | c :: r =>
      if ((c =? 101) || (c =? 69))%N then
        let '(neg, ds) :=
          match r with
          | 43%N :: t => (false, t)
          | 45%N :: t => (true, t)
          | _ => (false, r)
          end in
        match digitString 10%Z ds with
        | Some v => Some (if neg then - v else v)%Z
        | None => None
        end
      else None
  end.

(** StrUnsignedDecimalLiteral: [Infinity], [ddd.ddd], [.ddd] or [ddd],
    the last three with an optional exponent. *)
Definition strUnsignedDecimalLiteral (s : jsstring) : option mv :=
  if jsstring_eqb s (lit "Infinity") then Some MVInfinity
  else
    let (ip, r1) := span isDigit s in
    let '(fp, r2) :=
      match r1 with
      | 46%N :: r => span isDigit r
      | _ => ([], r1)
      end in
    match ip ++ fp with
    | [] => None
    | ds =>
        match exponentPart r2 with
        | Some ex => Some (MVDecimal (decimalValue ds) (ex - Z.of_nat (List.length fp))%Z)
        | None => None
        end
    end.

(** NonDecimalIntegerLiteral: [0x], [0o] or [0b] and digits; unsigned. *)
Definition nonDecimalIntegerLiteral (s : jsstring) : option Z :=
  match s with
  | 48%N :: p :: ds =>
      if ((p =? 120) || (p =? 88))%N then digitString 16%Z ds
      else if ((p =? 111) || (p =? 79))%N then digitString 8%Z ds
      else if ((p =? 98) || (p =? 66))%N then digitString 2%Z ds
      else None
  | _ => None
  end.

(** StringToNumber (ECMA-262 7.1.4.1.1): white space around the literal
    is ignored, the empty literal is [+0], anything outside the grammar
    is [NaN]. *)
Definition StringToNumber (s : jsstring) : float :=
  match trim s with
  | [] => zero
  | t =>
      match nonDecimalIntegerLiteral t with
      | Some n => roundDecimal false n 0%Z
      | None =>
          let '(neg, u) :=
            match t with
            | 43%N :: r => (false, r)
            | 45%N :: r => (true, r)
            | _ => (false, t)
            end in
          match strUnsignedDecimalLiteral u with
          | Some MVInfinity => if neg then neg_infinity else infinity
          | Some (MVDecimal d k) => roundDecimal neg d k
          | None => nan
          end
      end
  end.

(** [Number(v)] on a string or [undefined]: ToNumber. *)
Definition Number (v : option jsstring) : float :=
  match v with
  | Some s => StringToNumber s
  | None => nan
  end.

(** The decimal digits of a non-negative integer. *)
Definition decimalString (n : Z) : jsstring :=
  lit (NilZero.string_of_uint (N.to_uint (Z.to_N n))).

(** [Number::toString] for a finite [x >= 10^21], given as the integer
    [X] it denotes: the shortest digit string [s] (of [k] digits) and
    exponent [n] with [s * 10^(n-k)] rounding to [x]; of two candidates
    of that length the one nearer to [X]. [k] runs from [1]; seventeen
    digits always identify a double. *)
Fixpoint shortestDigits (fuel : nat) (k : Z) (X n0 : Z) (x : float) : Z * Z :=
  let p := (10 ^ (n0 - k))%Z in
  let lo := (X / p)%Z in
  let hi := (lo + 1)%Z in
  let back v := PrimFloat.eqb (roundDecimal false (v * p)%Z 0%Z) x in
  let pick s := if (s =? 10 ^ k)%Z then (1%Z, (n0 + 1)%Z) else (s, n0) in
  match back lo, back hi with
  | true, true =>
      match (X - lo * p ?= hi * p - X)%Z with
      | Lt => pick lo
      | Gt => pick hi
      | Eq => if Z.even lo then pick lo else pick hi
      end
  | true, false => pick lo
  | false, true => pick hi
  | false, false =>
      match fuel with
      | O => (lo, n0)
      | S fuel' => shortestDigits fuel' (k + 1)%Z X n0 x
      end
  end.

Definition toStringLarge (X : Z) (x : float) : jsstring :=
  let n0 := Z.of_nat (List.length (decimalString X)) in
  let '(s, n) := shortestDigits 17 1%Z X n0 x in
  let ds := decimalString s in
  match ds with
  | [d] => [d] ++ lit "e+" ++ decimalString (n - 1)%Z
  | d :: r => [d] ++ lit "." ++ r ++ lit "e+" ++ decimalString (n - 1)%Z
  | [] => []
  end.

(** The digits of [toFixed]: the decimal string of [n], padded on the
    left with zeros to [f + 1] digits, a point before the last [f]. *)
Definition fixedDigits (n : Z) (f : nat) : jsstring :=
  let m := decimalString n in
  let k := List.length m in
  let m := if (k <=? f)%nat then repeat 48%N (f + 1 - k) ++ m else m in
  let k := List.length m in
  match f with
  | O => m
  | _ => firstn (k - f) m ++ lit "." ++ skipn (k - f) m
  end.

(** [Number.prototype.toFixed] (ECMA-262 21.1.3.3) for [f] fraction
    digits: [n] is the integer nearest to [|x| * 10^f], the larger one
    of two; values from [10^21] on print as [toString] does. *)
Definition toFixed (x : float) (f : nat) : jsstring :=
  match Prim2SF x with
  | S754_nan => lit "NaN"
  | S754_infinity s => if s then lit "-Infinity" else lit "Infinity"
  | S754_zero _ => fixedDigits 0%Z f
  | S754_finite s m e =>
      let num := (if 0 <=? e then Zpos m * 2 ^ e else Zpos m)%Z in
      let den := (if 0 <=? e then 1 else 2 ^ (- e))%Z in
      (if s then lit "-" else []) ++
      (if (10 ^ 21 * den <=? num)%Z then toStringLarge num (abs x)
       else fixedDigits ((2 * num * 10 ^ Z.of_nat f + den) / (2 * den))%Z f)
  end.

(** [Number(x.toFixed(f))]: [x] rounded to [f] decimal places. *)
Definition roundTo (f : nat) (x : float) : float :=
  StringToNumber (toFixed x f).

(** The primitive values held by the properties of a cart item. *)
Inductive value :=
| VUndefined
| VString (s : jsstring)
| VNumber (x : float).

Definition valueOf (v : option jsstring) : value :=
  match v with
  | Some s => VString s
  | None => VUndefined
  end.

(** ToNumber on a property value, as the operands of [*] undergo. *)
Definition ToNumber (v : value) : float :=
  match v with
  | VUndefined => nan
  | VString s => StringToNumber s
  | VNumber x => x
  end.

(** An object is its own properties in insertion order. *)
Definition object := list (jsstring * value).

(** [o.k]: the value of property [k], [undefined] when absent. *)
Fixpoint get (o : object) (k : jsstring) : value :=
  match o with
  | [] => VUndefined
  | (k', v) :: r => if jsstring_eqb k' k then v else get r k
  end.

(** [o[k] = v]: an existing property keeps its place, a new one is
    added last. *)
Fixpoint set (o : object) (k : jsstring) (v : value) : object :=
  match o with
  | [] => [(k, v)]
  | (k', v') :: r =>
      if jsstring_eqb k' k then (k', v) :: r else (k', v') :: set r k v
  end.

End JS.

(* ================================================================== *)
(** * The class [CartParser] *)
(* ================================================================== *)

Module CartParser.
Import JS.

(** ** The constructor: column types, error types, schema *)

Inductive ColumnType := STRING | NUMBER_POSITIVE.

Inductive ErrorType := HEADER | ROW | CELL.

Record Column := {
  name : jsstring;
  key : jsstring;
  type : ColumnType
}.

(** [this.schema.columns] *)
Definition columns : list Column :=
  [ {| name := lit "Product name"; key := lit "name"; type := STRING |};
    {| name := lit "Price"; key := lit "price"; type := NUMBER_POSITIVE |};
    {| name := lit "Quantity"; key := lit "quantity"; type := NUMBER_POSITIVE |} ].

(** ** Validation errors *)

Record ValidationError := {
  etype : ErrorType;
  row : Z;
  column : Z;
  message : jsstring
}.

Definition createError (type : ErrorType) (row column : Z) (message : jsstring)
  : ValidationError :=
  {| etype := type; row := row; column := column; message := message |}.

(** ** Effects *)

(** What a method can throw: the [TypeError] of a property access on
    [undefined], an [Error] with its message, and the failure of
    [readFileSync]. *)
Inductive exn :=
| TypeError
| Error (message : jsstring)
| ReadError.

Inductive completion (A : Type) :=
| Return (a : A)
| Throw (e : exn).
Arguments Return {A} a.
Arguments Throw {A} e.

(** The collaborators of the class: the file system behind
    [readFileSync], the identifiers [uuid.v4] hands out (the [n]-th call
    gives [uuids n]), and what [console.error] has received. *)
Record World := {
  files : jsstring -> option jsstring;
  uuids : nat -> jsstring;
  issued : nat;
  console : list (list ValidationError)
}.

Definition M (A : Type) : Type := World -> completion A * World.

Definition ret {A} (a : A) : M A := fun w => (Return a, w).

Definition throw {A} (e : exn) : M A := fun w => (Throw e, w).

Definition bind {A B} (m : M A) (k : A -> M B) : M B :=
  fun w => match m w with
           | (Return a, w') => k a w'
           | (Throw e, w') => (Throw e, w')
           end.

Notation "x <- m ;; k" := (bind m (fun x => k))
  (at level 61, m at next level, right associativity).

(** [readFileSync(path, 'utf-8', 'r')] *)
Definition readFileSync (path : jsstring) : M jsstring :=
  fun w => match files w path with
           | Some contents => (Return contents, w)
           | None => (Throw ReadError, w)
           end.

(** [uuid.v4()] *)
Definition uuid_v4 : M jsstring :=
  fun w => (Return (uuids w (issued w)),
            {| files := files w; uuids := uuids w;
               issued := S (issued w); console := console w |}).

(** [console.error(errors)] *)
Definition console_error (errors : list ValidationError) : M unit :=
  fun w => (Return tt,
            {| files := files w; uuids := uuids w;
               issued := issued w; console := console w ++ [errors] |}).

(** [a.map(f)] for an effectful [f]: the elements in order. *)
Fixpoint mapM {A B} (f : A -> M B) (l : list A) : M (list B) :=
  match l with
  | [] => ret []
  | x :: r => y <- f x ;; ys <- mapM f r ;; ret (y :: ys)
  end.

(** ** [validate] *)

(** [contents.split(/\n/).filter(l => l)] *)
Definition nonEmptyLines (contents : jsstring) : list jsstring :=
  filter (fun l => truthy (Some l)) (split LF contents).

(** [lines.filter((l, i) => i > 0)] *)
Definition afterFirst (lines : list jsstring) : list jsstring :=
  filteri (fun _ i => (0 <? i)%nat) lines.

(** [line.split(/,/).map(c => c.trim())] *)
Definition cellsOf (line : jsstring) : list jsstring :=
  map trim (split COMMA line).

Definition headerMessage (expectedName : jsstring) (received : option jsstring)
  : jsstring :=
  lit "Expected header to be named " ++ [QUOTE] ++ expectedName ++ [QUOTE]
  ++ lit " but received " ++ templateString received ++ lit ".".

Definition rowMessage (expected received : nat) : jsstring :=
  lit "Expected row to have " ++ decimalString (Z.of_nat expected)
  ++ lit " cells but received " ++ decimalString (Z.of_nat received) ++ lit ".".

Definition stringMessage (cell : option jsstring) : jsstring :=
  lit "Expected cell to be a nonempty string but received " ++ [QUOTE]
  ++ templateString cell ++ [QUOTE] ++ lit ".".

Definition numberMessage (cell : option jsstring) : jsstring :=
  lit "Expected cell to be a positive number but received " ++ [QUOTE]
  ++ templateString cell ++ [QUOTE] ++ lit ".".

(** The body of the loop over the header positions; [errors.push(e)]
    is [errors ++ [e]]. *)
Definition headerStep (headers : list jsstring) (i : nat)
  (errors : list ValidationError) : list ValidationError :=
  match nth_error columns i with
  | Some col =>
      let expectedName := name col in
      if negb (strictEq (array_get headers i) expectedName)
      then errors ++ [createError HEADER 0 (Z.of_nat i)
                        (headerMessage expectedName (array_get headers i))]
      else errors
  | None => errors
  end.

(** The body of the inner loop over the cells of row [i]. The test
    [typeof cellAsNumber != 'number'] of the source never holds of the
    result of [Number] and has no counterpart on [float]. *)
Definition cellStep (i : nat) (cells : list jsstring) (j : nat)
  (errors : list ValidationError) : list ValidationError :=
  match nth_error columns j with
  | Some col =>
      let cell := array_get cells j in
      match type col with
      | STRING =>
          if negb (truthy cell)
          then errors ++ [createError CELL (Z.of_nat i + 1) (Z.of_nat j)
                            (stringMessage cell)]
          else errors
      | NUMBER_POSITIVE =>
          let cellAsNumber := Number cell in
          if isNaN cellAsNumber || (cellAsNumber <? 0)%float
          then errors ++ [createError CELL (Z.of_nat i + 1) (Z.of_nat j)
                            (numberMessage cell)]
          else errors
      end
  | None => errors
  end.

(** The body of the loop over the body lines, at line [i]; a short row
    is reported and left ([continue]). *)
Definition rowBody (i : nat) (line : jsstring)
  (errors : list ValidationError) : list ValidationError :=
  let cells := cellsOf line in
  if (List.length cells <? List.length columns)%nat
  then errors ++ [createError ROW (Z.of_nat i + 1) (-1)
                    (rowMessage (List.length columns) (List.length cells))]
  else for_range (List.length columns) (cellStep i cells) errors.

Definition rowStep (bodyLines : list jsstring) (i : nat)
  (errors : list ValidationError) : list ValidationError :=
  match nth_error bodyLines i with
  | Some line => rowBody i line errors
  | None => errors
  end.

(** [validate(contents)]: [lines[0]] is [undefined] when no line is
    left, and [headersLine.split] then throws a [TypeError]. *)
Definition validate (contents : jsstring) : completion (list ValidationError) :=
  let errors := [] in
  let lines := nonEmptyLines contents in
  let headersLine := array_get lines 0 in
  let bodyLines := afterFirst lines in
  match headersLine with
  | None => Throw TypeError
  | Some headersLine =>
      let headers := cellsOf headersLine in
      let errors := for_range (List.length columns) (headerStep headers) errors in
      let errors := for_range (List.length bodyLines) (rowStep bodyLines) errors in
      Return errors
  end.

(** ** [parseLine] *)

(** The loop of [parseLine] over the keys of the schema: cell [i] goes
    to key [i], as a number for a [NUMBER_POSITIVE] column. *)
Definition lineItem (csvLine : jsstring) : object :=
  let types := map type columns in
  let keys := map key columns in
  let values := cellsOf csvLine in
  for_range (List.length keys)
    (fun i item =>
       match nth_error types i, nth_error keys i with
       | Some type, Some key =>
           let value := array_get values i in
           let valueTyped :=
             match type with
             | NUMBER_POSITIVE => VNumber (Number value)
             | STRING => valueOf value
             end in
           set item key valueTyped
       | _, _ => item
       end)
    [].

Definition parseLine (csvLine : jsstring) : M object :=
  let item := lineItem csvLine in
  id <- uuid_v4 ;;
  ret (set item (lit "id") (VString id)).

(** ** [calcTotal] *)

Definition calcTotal (cartItems : list object) : float :=
  fold_left
    (fun acc cur =>
       (acc + ToNumber (get cur (lit "price"))
              * ToNumber (get cur (lit "quantity")))%float)
    cartItems 0%float.

(** ** [parse] *)

Record ParseResult := {
  items : list object;
  total : float
}.

Definition parse (path : jsstring) : M ParseResult :=
  contents <- readFileSync path ;;
  match validate contents with
  | Throw e => throw e
  | Return validationErrors =>
      if (0 <? List.length validationErrors)%nat
      then _ <- console_error validationErrors ;;
           throw (Error (lit "Validation failed!"))
      else
        let lines := afterFirst (nonEmptyLines contents) in
        items <- mapM parseLine lines ;;
        let total := calcTotal items in
        ret {| items := items; total := roundTo 2 total |}
  end.

End CartParser.

Import JS CartParser.

(* ================================================================== *)
(** * The tests of the repository, replayed on the embedding *)
(* ================================================================== *)

Module Tests.

(** The indentation of the template literals of the tests. *)
Definition TAB : code_unit := 9%N.
Definition SP : code_unit := 32%N.

Definition header : jsstring := lit "Product name,Price,Quantity".

(** The collaborators as the tests mock them: [readFileSync] returns
    [contents] for every path and [uuid.v4] always returns the same
    identifier. *)
Definition mocked (contents : jsstring) : World :=
  {| files := fun _ => Some contents;
     uuids := fun _ => lit "uuid";
     issued := 0;
     console := [] |}.

Definition cartItem (name : string) (price quantity : float) : object :=
  [ (lit "name", VString (lit name));
    (lit "price", VNumber price);
    (lit "quantity", VNumber quantity);
    (lit "id", VString (lit "uuid")) ].

Definition correctData : jsstring :=
  header ++ [LF]
  ++ [TAB; TAB; TAB] ++ lit "Mollis consequat,9.00,2" ++ [LF]
  ++ [TAB; TAB; TAB] ++ lit "Tvoluptatem,10.32,1" ++ [LF]
  ++ [TAB; TAB; TAB] ++ lit "Scelerisque lacinia,18.90,1" ++ [LF]
  ++ [TAB; TAB; TAB] ++ lit "Consectetur adipiscing,28.72,10" ++ [LF]
  ++ [TAB; TAB; TAB] ++ lit "Condimentum aliquet,13.90,1" ++ [TAB].

Definition wrongHeaderLine : jsstring := lit "Product name,Priiice,Quantity".

Definition wrongHeaderRow : jsstring :=
  [TAB; TAB; SP; SP] ++ lit "Mollis consequat,9.00,2".

Definition wrongHeader : jsstring := wrongHeaderLine ++ [LF] ++ wrongHeaderRow.

Definition incorrectData : jsstring :=
  wrongHeaderLine ++ [LF] ++ [TAB; TAB] ++ lit "Mollis consequat,9.00,2".

Definition shortRowLine : jsstring := [TAB; TAB] ++ lit "Mollis consequat,9.00".

Definition shortRow : jsstring := header ++ [LF] ++ shortRowLine.

Definition emptyName : jsstring :=
  header ++ [LF] ++ [TAB; TAB] ++ lit ",9.00,2".

Definition negativeRow : jsstring :=
  [TAB; TAB; SP] ++ lit "Mollis consequat,2,-10".

Definition positiveRow : jsstring :=
  [TAB; TAB; SP] ++ lit "Tvoluptatem,10.32,1".

Definition negativeValue : jsstring :=
  header ++ [LF] ++ negativeRow ++ [LF] ++ positiveRow.

Definition validData : jsstring :=
  header ++ [LF]
  ++ [TAB; TAB; SP] ++ lit "Mollis consequat,9.00,2" ++ [LF] ++ positiveRow.

(** The error the test expects for [shortRow]. *)
Definition shortRowError : ValidationError :=
  createError ROW 1 (-1) (lit "Expected row to have 3 cells but received 2.").

(** A row with a fourth cell, and a row with a blank price and the
    quantity [0]. *)
Definition longRow : jsstring := lit "a,1,2,zzz".

Definition blankRow : jsstring := lit "a, ,0".

End Tests.

(* ================================================================== *)
(** * Notions used to state the properties *)
(* ================================================================== *)

(** [pieces.join(sep)] *)
Fixpoint join (sep : code_unit) (pieces : list jsstring) : jsstring :=
  match pieces with
  | [] => []
  | [p] => p
  | p :: r => p ++ sep :: join sep r
  end.

(** What the header loop pushes at position [i]. *)
Definition headerErrorsAt (headers : list jsstring) (i : nat)
  : list ValidationError :=
  headerStep headers i [].

(** What the cell loop pushes for cell [j] of row [i]. *)
Definition cellErrorsAt (i : nat) (cells : list jsstring) (j : nat)
  : list ValidationError :=
  cellStep i cells j [].

(** What the row loop pushes for the line at index [i] of the body. *)
Definition rowErrors (i : nat) (line : jsstring) : list ValidationError :=
  rowBody i line [].

(** The errors of the body: those of each line, in order. *)
Fixpoint bodyErrorsFrom (i : nat) (bodyLines : list jsstring)
  : list ValidationError :=
  match bodyLines with
  | [] => []
  | line :: r => rowErrors i line ++ bodyErrorsFrom (S i) r
  end.

(** The errors of [errors] located at row [r]. *)
Definition atRow (r : Z) (errors : list ValidationError)
  : list ValidationError :=
  filter (fun e => (row e =? r)%Z) errors.

(** The world after [n] more identifiers were handed out. *)
Definition afterIds (n : nat) (w : World) : World :=
  {| files := files w; uuids := uuids w;
     issued := n + issued w; console := console w |}.

(** The world after [console.error(errors)]. *)
Definition afterLog (errors : list ValidationError) (w : World) : World :=
  {| files := files w; uuids := uuids w;
     issued := issued w; console := console w ++ [errors] |}.

(** The item [parseLine] returns for [line] when [uuid.v4] gives [id]. *)
Definition itemOf (line id : jsstring) : object :=
  lineItem line ++ [(lit "id", VString id)].

(** The items of the lines [lines], the first of which receives the
    [k]-th identifier of [ids]. *)
Fixpoint itemsFrom (ids : nat -> jsstring) (k : nat) (lines : list jsstring)
  : list object :=
  match lines with
  | [] => []
  | line :: r => itemOf line (ids k) :: itemsFrom ids (S k) r
  end.

(** [cur.price * cur.quantity] *)
Definition subtotal (cur : object) : float :=
  (ToNumber (get cur (lit "price")) * ToNumber (get cur (lit "quantity")))%float.

(** [0 <= x] on numbers. *)
Definition nonNegative (x : float) : Prop := (0 <=? x)%float = true.

(** Three cart items of quantity 1 priced 0.1, 0.2 and 0.3, and the
    same items in the opposite order. *)
Definition dimes : list object :=
  [ Tests.cartItem "a" 0.1 1; Tests.cartItem "b" 0.2 1;
    Tests.cartItem "c" 0.3 1 ].

Definition dimesReversed : list object :=
  [ Tests.cartItem "c" 0.3 1; Tests.cartItem "b" 0.2 1;
    Tests.cartItem "a" 0.1 1 ].

(** The errors of [errors] located at a body row. *)
Definition inBody (errors : list ValidationError) : list ValidationError :=
  filter (fun e => (0 <? row e)%Z) errors.

(** The position of an error, and the order in which [validate] visits
    the positions: by row, then by column. *)
Definition positionLt (a b : ValidationError) : Prop :=
  (row a < row b)%Z \/ (row a = row b /\ column a < column b)%Z.

(** A header line whose first three trimmed tokens are the names of the
    schema. *)
Definition validHeader (headersLine : jsstring) : Prop :=
  firstn 3 (cellsOf headersLine) = map name columns.

(** A number cell that [validate] accepts. *)
Definition acceptedNumber (cell : jsstring) : Prop :=
  isNaN (StringToNumber cell) || (StringToNumber cell <? 0)%float = false.

(** A body line that [validate] accepts: at least three cells, the
    first one not empty, the second and third accepted as numbers. *)
Definition validRow (line : jsstring) : Prop :=
  exists c0 c1 c2 extra,
    cellsOf line = c0 :: c1 :: c2 :: extra
    /\ c0 <> [] /\ acceptedNumber c1 /\ acceptedNumber c2.

(** [NaN] or at least zero. *)
Definition nanOrNonNegative (x : float) : Prop :=
  isNaN x = true \/ nonNegative x.

(** The same on the specification side of a double. *)
Definition signless (x : spec_float) : Prop :=
  match x with
  | S754_nan | S754_zero _ => True
  | S754_infinity s | S754_finite s _ _ => s = false
  end.

(** The characters [toFixed] prints for a number without sign. *)
Definition numeralChar (c : code_unit) : bool :=
  (isDigit c || (c =? 46) || (c =? 101) || (c =? 43))%N.

(** The identifier of an item. *)
Definition idOf (item : object) : value := get item (lit "id").

(** An identifier source for the examples: the [n]-th identifier is
    [n] times the letter [u]. *)
Definition tally (n : nat) : jsstring := repeat 117%N n.

(** Closed goals are settled by evaluating both sides. *)
Ltac evaluate := vm_compute; reflexivity.

(** "should parse correctly with given correct data" *)
Example test_parse_correct_data :
  fst (parse [] (Tests.mocked Tests.correctData))
  = Return {| items :=
                [ Tests.cartItem "Mollis consequat" 9 2;
                  Tests.cartItem "Tvoluptatem" 10.32 1;
                  Tests.cartItem "Scelerisque lacinia" 18.9 1;
                  Tests.cartItem "Consectetur adipiscing" 28.72 10;
                  Tests.cartItem "Condimentum aliquet" 13.9 1 ];
              total := 348.32 |}.
Proof. evaluate. Qed.

(** "should return error message when table have incorrect data" *)
Example test_parse_incorrect_data :
  fst (parse [] (Tests.mocked Tests.incorrectData))
  = Throw (Error (lit "Validation failed!")).
Proof. evaluate. Qed.

(** "should return error when given incorrect header name" *)
Example test_validate_header :
  validate Tests.wrongHeader
  = Return [ createError HEADER 0 1
               (lit "Expected header to be named " ++ [QUOTE] ++ lit "Price"
                ++ [QUOTE] ++ lit " but received Priiice.") ].
Proof. evaluate. Qed.

(** "should return error if row length doesn't match with scheme" *)
Example test_validate_row_length :
  validate Tests.shortRow
  = Return [ createError ROW 1 (-1)
               (lit "Expected row to have 3 cells but received 2.") ].
Proof. evaluate. Qed.

(** "should return error when receive empty string instead of nonempty" *)
Example test_validate_empty_string :
  validate Tests.emptyName
  = Return [ createError CELL 1 0
               (lit "Expected cell to be a nonempty string but received "
                ++ [QUOTE; QUOTE] ++ lit ".") ].
Proof. evaluate. Qed.

(** "should return error when receive negative value instead of positive" *)
Example test_validate_negative :
  validate Tests.negativeValue
  = Return [ createError CELL 1 2
               (lit "Expected cell to be a positive number but received "
                ++ [QUOTE] ++ lit "-10" ++ [QUOTE] ++ lit ".") ].
Proof. evaluate. Qed.

(** "should not return errors if data valid" *)
Example test_validate_valid : validate Tests.validData = Return [].
Proof. evaluate. Qed.

(** "should parse given line correctly" *)
Example test_parseLine :
  fst (parseLine (lit "Mollis consequat,9,2") (Tests.mocked []))
  = Return (Tests.cartItem "Mollis consequat" 9 2).
Proof. evaluate. Qed.

(** "should return correct total price": [toBeCloseTo] of the test
    accepts the sum up to [0.005]; here it is the exact double. *)
Example test_calcTotal :
  calcTotal [ Tests.cartItem "Mollis consequat" 9 2;
              Tests.cartItem "Tvoluptatem" 10.32 1;
              Tests.cartItem "Scelerisque lacinia" 18.9 1 ]
  = (9 * 2 + 10.32 + 18.9)%float.
Proof. evaluate. Qed.


(* ================================================================== *)
(** * The runtime fragment: [split], [trim], [toFixed] *)
(* ================================================================== *)

Lemma split_not_nil sep s : split sep s <> [].
Proof.
  destruct s as [|c r]; simpl; [discriminate|].
  destruct (c =? sep)%N; [discriminate|].
  destruct (split sep r); discriminate.
Qed.

(** Splitting loses nothing: the pieces joined by the separator are the
    string. *)
Lemma join_split sep s : join sep (split sep s) = s.
Proof.
  induction s as [|c r IH]; [reflexivity|]. simpl.
  destruct (N.eqb_spec c sep) as [->|Hne].
  - pose proof (split_not_nil sep r) as Hnil.
    simpl. destruct (split sep r) as [|p ps]; [contradiction|].
    simpl. f_equal. exact IH.
  - pose proof (split_not_nil sep r) as Hnil.
    destruct (split sep r) as [|p ps]; [contradiction|].
    rewrite <- IH. destruct ps; reflexivity.
Qed.

(** No piece holds the separator. *)
Lemma split_no_separator sep s :
  Forall (fun p => ~ In sep p) (split sep s).
Proof.
  induction s as [|c r IH]; simpl.
  - constructor; [intros []|constructor].
  - destruct (N.eqb_spec c sep) as [->|Hne].
    + constructor; [intros []|exact IH].
    + destruct (split sep r) as [|p ps]; [repeat constructor; intros [|[]]; congruence|].
      inversion IH as [|? ? Hp Hps]; subst. constructor; [|assumption].
      intros [Heq|Hin]; [congruence|contradiction].
Qed.

(** A line kept by [validate] and [parse] is not empty. *)
Lemma nonEmptyLines_not_empty contents line :
  In line (nonEmptyLines contents) -> line <> [].
Proof.
  unfold nonEmptyLines. rewrite filter_In. intros [_ H] ->. discriminate.
Qed.

Lemma trimStart_head s c r :
  trimStart s = c :: r -> isWhiteSpace c = false.
Proof.
  induction s as [|d t IH]; simpl; [discriminate|].
  destruct (isWhiteSpace d) eqn:Hd; [exact IH|].
  intro H. injection H as -> _. exact Hd.
Qed.

(** A trimmed string does not end with white space. *)
Lemma trim_last s t c :
  trim s = t ++ [c] -> isWhiteSpace c = false.
Proof.
  unfold trim, trimEnd. intro H.
  apply (f_equal (@rev _)) in H. rewrite rev_involutive, rev_app_distr in H.
  simpl in H. now apply trimStart_head in H.
Qed.

(** For a finite [x] below [10^21], [toFixed] with two digits prints the
    integer [n] nearest to [100 * |x|], the larger one of two: with
    [|x| = num / den], [n - 1/2 <= 100 * num / den < n + 1/2]. *)
Lemma toFixed_nearest x s m e :
  Prim2SF x = S754_finite s m e ->
  let num := (if 0 <=? e then Zpos m * 2 ^ e else Zpos m)%Z in
  let den := (if 0 <=? e then 1 else 2 ^ (- e))%Z in
  (num < 10 ^ 21 * den)%Z ->
  exists n,
    toFixed x 2 = (if s then lit "-" else []) ++ fixedDigits n 2
    /\ (2 * den * n <= 2 * num * 100 + den < 2 * den * (n + 1))%Z.
Proof.
  intros Hx num den Hsmall.
  assert (Hden : (0 < den)%Z).
  { unfold den. destruct (0 <=? e)%Z eqn:He; [lia|].
    apply Z.pow_pos_nonneg; lia. }
  exists ((2 * num * 10 ^ Z.of_nat 2 + den) / (2 * den))%Z. split.
  - unfold toFixed. rewrite Hx. fold num den.
    destruct (Z.leb_spec (10 ^ 21 * den) num) as [Hle|_]; [lia|]. reflexivity.
  - change (10 ^ Z.of_nat 2)%Z with 100%Z.
    pose proof (Z.div_mod (2 * num * 100 + den) (2 * den) ltac:(lia)) as Hdm.
    pose proof (Z.mod_pos_bound (2 * num * 100 + den) (2 * den) ltac:(lia)) as Hmod.
    lia.
Qed.

(* ================================================================== *)
(** * Loops and arrays *)
(* ================================================================== *)

Section Loops.

Context {A E : Type}.

Lemma filteri_from_positive (l : list A) (k : nat) :
  filteri_from (fun _ i => (0 <? i)%nat) (S k) l = l.
Proof.
  revert k. induction l as [|x r IH]; intro k; simpl.
  - reflexivity.
  - now rewrite IH.
Qed.

(** A loop that only pushes onto its accumulator yields the
    accumulator followed by what each round pushes. *)
Lemma fold_push (f : nat -> list E) (body : nat -> list E -> list E)
  (Hbody : forall i s, body i s = s ++ f i) :
  forall (idx : list nat) (s : list E),
    fold_left (fun acc i => body i acc) idx s = s ++ flat_map f idx.
Proof.
  induction idx as [|i r IH]; intro s; simpl.
  - now rewrite app_nil_r.
  - rewrite IH, Hbody, <- app_assoc. reflexivity.
Qed.

Lemma for_range_push (f : nat -> list E) (body : nat -> list E -> list E)
  (n : nat) (s : list E) :
  (forall i s, body i s = s ++ f i) ->
  for_range n body s = s ++ flat_map f (seq 0 n).
Proof. intro Hbody. unfold for_range. now apply fold_push. Qed.

End Loops.

(** [lines.filter((l, i) => i > 0)] drops the first line and keeps the
    others in order. *)
Lemma afterFirst_tl (l : list jsstring) : afterFirst l = tl l.
Proof.
  destruct l as [|x r]; [reflexivity|].
  unfold afterFirst, filteri. simpl. apply filteri_from_positive.
Qed.

(* ================================================================== *)
(** * [validate] as a function of the lines *)
(* ================================================================== *)

Lemma headerStep_push headers i s :
  headerStep headers i s = s ++ headerErrorsAt headers i.
Proof.
  unfold headerErrorsAt, headerStep.
  destruct (nth_error columns i) as [col|]; [|now rewrite app_nil_r].
  destruct (negb _); [reflexivity | now rewrite app_nil_r].
Qed.

Lemma cellStep_push i cells j s :
  cellStep i cells j s = s ++ cellErrorsAt i cells j.
Proof.
  unfold cellErrorsAt, cellStep.
  destruct (nth_error columns j) as [col|]; [|now rewrite app_nil_r].
  destruct (type col).
  - destruct (negb _); [reflexivity | now rewrite app_nil_r].
  - destruct (_ || _); [reflexivity | now rewrite app_nil_r].
Qed.

Lemma rowBody_push i line s : rowBody i line s = s ++ rowErrors i line.
Proof.
  unfold rowErrors, rowBody.
  destruct (_ <? _)%nat; [reflexivity|].
  rewrite !(for_range_push (cellErrorsAt i (cellsOf line)))
    by (intros; apply cellStep_push).
  reflexivity.
Qed.

Lemma rowStep_push bodyLines i s :
  rowStep bodyLines i s = s ++ rowStep bodyLines i [].
Proof.
  unfold rowStep. destruct (nth_error bodyLines i) as [line|].
  - rewrite rowBody_push. symmetry. rewrite rowBody_push. reflexivity.
  - now rewrite app_nil_r.
Qed.

(** The three rounds of the cell loop. *)
Lemma rowErrors_long i line :
  (List.length (cellsOf line) <? 3)%nat = false ->
  rowErrors i line
  = cellErrorsAt i (cellsOf line) 0 ++ cellErrorsAt i (cellsOf line) 1
    ++ cellErrorsAt i (cellsOf line) 2.
Proof.
  intro Hlen. unfold rowErrors, rowBody.
  change (List.length columns) with 3. rewrite Hlen.
  rewrite (for_range_push (cellErrorsAt i (cellsOf line)))
    by (intros; apply cellStep_push).
  simpl. now rewrite app_nil_r.
Qed.

Lemma rowErrors_short i line :
  (List.length (cellsOf line) <? 3)%nat = true ->
  rowErrors i line
  = [createError ROW (Z.of_nat i + 1) (-1)
       (rowMessage 3 (List.length (cellsOf line)))].
Proof.
  intro Hlen. unfold rowErrors, rowBody.
  change (List.length columns) with 3. now rewrite Hlen.
Qed.

Lemma flat_map_rowStep (pre bodyLines : list jsstring) :
  flat_map (fun i => rowStep (pre ++ bodyLines) i [])
    (seq (List.length pre) (List.length bodyLines))
  = bodyErrorsFrom (List.length pre) bodyLines.
Proof.
  revert pre. induction bodyLines as [|line r IH]; intro pre; simpl.
  - reflexivity.
  - f_equal.
    + unfold rowStep. rewrite nth_error_app2, Nat.sub_diag by lia. reflexivity.
    + specialize (IH (pre ++ [line])).
      rewrite <- app_assoc in IH. simpl in IH.
      rewrite length_app in IH. simpl in IH.
      rewrite Nat.add_1_r in IH. exact IH.
Qed.

(** [validate] throws exactly when no line is left, and otherwise
    returns the header errors followed by the errors of each body line. *)
Lemma validate_lines contents :
  validate contents
  = match nonEmptyLines contents with
    | [] => Throw TypeError
    | headersLine :: bodyLines =>
        Return (headerErrorsAt (cellsOf headersLine) 0
                ++ headerErrorsAt (cellsOf headersLine) 1
                ++ headerErrorsAt (cellsOf headersLine) 2
                ++ bodyErrorsFrom 0 bodyLines)
    end.
Proof.
  unfold validate. destruct (nonEmptyLines contents) as [|h body].
  - reflexivity.
  - unfold array_get. simpl nth_error. cbv iota. rewrite afterFirst_tl. simpl tl.
    f_equal.
    rewrite (for_range_push (fun i => rowStep body i []))
      by (intros; apply rowStep_push).
    rewrite (for_range_push (headerErrorsAt (cellsOf h)))
      by (intros; apply headerStep_push).
    change (List.length columns) with 3.
    pose proof (flat_map_rowStep [] body) as Hbody.
    change ([] ++ body) with body in Hbody.
    change (List.length (@nil jsstring)) with 0 in Hbody.
    rewrite Hbody. simpl. rewrite !app_nil_r, <- !app_assoc. reflexivity.
Qed.

(** ** Where the errors of each loop are located *)

Lemma headerErrorsAt_cases headers i e :
  In e (headerErrorsAt headers i) ->
  exists col,
    nth_error columns i = Some col
    /\ strictEq (array_get headers i) (name col) = false
    /\ e = createError HEADER 0 (Z.of_nat i)
             (headerMessage (name col) (array_get headers i)).
Proof.
  unfold headerErrorsAt, headerStep.
  destruct (nth_error columns i) as [col|]; [|intros []].
  destruct (strictEq _ _) eqn:Heq; simpl; [intros []|].
  intros [<-|[]]. now exists col.
Qed.

Lemma cellErrorsAt_located i cells j e :
  In e (cellErrorsAt i cells j) ->
  etype e = CELL /\ row e = (Z.of_nat i + 1)%Z /\ column e = Z.of_nat j.
Proof.
  unfold cellErrorsAt, cellStep.
  destruct (nth_error columns j) as [col|]; [|intros []].
  destruct (type col).
  - destruct (negb _); simpl; [|intros []]. intros [<-|[]]. now simpl.
  - destruct (_ || _); simpl; [|intros []]. intros [<-|[]]. now simpl.
Qed.

Lemma rowErrors_row i line e :
  In e (rowErrors i line) -> row e = (Z.of_nat i + 1)%Z.
Proof.
  destruct (List.length (cellsOf line) <? 3)%nat eqn:Hlen.
  - rewrite rowErrors_short by assumption. intros [<-|[]]. reflexivity.
  - rewrite rowErrors_long by assumption. rewrite !in_app_iff.
    intros [H|[H|H]]; now apply cellErrorsAt_located in H.
Qed.

Lemma atRow_app r a b : atRow r (a ++ b) = atRow r a ++ atRow r b.
Proof. apply filter_app. Qed.

Lemma atRow_all r l : (forall e, In e l -> row e = r) -> atRow r l = l.
Proof.
  induction l as [|e l IH]; intro H; simpl; [reflexivity|].
  rewrite (H e) by now left. rewrite Z.eqb_refl. f_equal.
  apply IH. intros; apply H; now right.
Qed.

Lemma atRow_none r l : (forall e, In e l -> row e <> r) -> atRow r l = [].
Proof.
  induction l as [|e l IH]; intro H; simpl; [reflexivity|].
  destruct (Z.eqb_spec (row e) r) as [Heq|_].
  - exfalso. now apply (H e); [left|].
  - apply IH. intros; apply H; now right.
Qed.

Lemma bodyErrorsFrom_row k bodyLines e :
  In e (bodyErrorsFrom k bodyLines) -> (Z.of_nat k + 1 <= row e)%Z.
Proof.
  revert k. induction bodyLines as [|line r IH]; intro k; simpl; [intros []|].
  rewrite in_app_iff. intros [H|H].
  - apply rowErrors_row in H. lia.
  - apply IH in H. lia.
Qed.

(** The errors located at row [i + 1] are those of body line [i]. *)
Lemma atRow_bodyErrorsFrom bodyLines : forall k i line,
  nth_error bodyLines i = Some line ->
  atRow (Z.of_nat (k + i) + 1) (bodyErrorsFrom k bodyLines)
  = rowErrors (k + i) line.
Proof.
  induction bodyLines as [|l r IH]; intros k i line Hnth.
  - destruct i; discriminate.
  - simpl. rewrite atRow_app. destruct i as [|i]; simpl in Hnth.
    + injection Hnth as ->. rewrite Nat.add_0_r.
      rewrite atRow_all by apply rowErrors_row.
      rewrite atRow_none; [now rewrite app_nil_r|].
      intros e He. apply bodyErrorsFrom_row in He. lia.
    + rewrite atRow_none.
      * replace (k + S i) with (S k + i) by lia. now apply IH.
      * intros e He. apply rowErrors_row in He. lia.
Qed.

Lemma in_bodyErrorsFrom bodyLines : forall k i line e,
  nth_error bodyLines i = Some line ->
  In e (rowErrors (k + i) line) -> In e (bodyErrorsFrom k bodyLines).
Proof.
  induction bodyLines as [|l r IH]; intros k i line e Hnth He.
  - destruct i; discriminate.
  - simpl. rewrite in_app_iff. destruct i as [|i]; simpl in Hnth.
    + injection Hnth as ->. rewrite Nat.add_0_r in He. now left.
    + right. apply (IH (S k) i line); [assumption|].
      now replace (S k + i) with (k + S i) by lia.
Qed.

Lemma atRow_headerErrorsAt headers j r :
  (0 < r)%Z -> atRow r (headerErrorsAt headers j) = [].
Proof.
  intro Hr. apply atRow_none. intros e He.
  apply headerErrorsAt_cases in He as (col & _ & _ & ->). simpl. lia.
Qed.

(** On a file with a header line, [validate] returns, and its errors
    at row [i + 1] are exactly those of body line [i]. *)
Lemma validate_row contents headersLine bodyLines i line :
  nonEmptyLines contents = headersLine :: bodyLines ->
  nth_error bodyLines i = Some line ->
  exists errors,
    validate contents = Return errors
    /\ atRow (Z.of_nat i + 1) errors = rowErrors i line
    /\ (forall e, In e (rowErrors i line) -> In e errors).
Proof.
  intros Hlines Hnth. rewrite validate_lines, Hlines.
  eexists. split; [reflexivity|]. split.
  - rewrite !atRow_app, !atRow_headerErrorsAt by lia. simpl.
    exact (atRow_bodyErrorsFrom bodyLines 0 i line Hnth).
  - intros e He. rewrite !in_app_iff. do 3 right.
    now apply (in_bodyErrorsFrom bodyLines 0 i line).
Qed.

(* ================================================================== *)
(** * Totality of [validate] *)
(* ================================================================== *)

Lemma nonEmptyLines_LF contents :
  nonEmptyLines (LF :: contents) = nonEmptyLines contents.
Proof. reflexivity. Qed.

Lemma nonEmptyLines_newlines n : nonEmptyLines (repeat LF n) = [].
Proof.
  induction n as [|n IH]; [reflexivity|].
  simpl repeat. now rewrite nonEmptyLines_LF.
Qed.

(** [validate] returns exactly on the files that have a line. *)
Lemma validate_returns_iff contents :
  (exists errors, validate contents = Return errors)
  <-> nonEmptyLines contents <> [].
Proof.
  rewrite validate_lines. destruct (nonEmptyLines contents) as [|h body].
  - split; [intros [errors H]; discriminate | intro H; now contradiction H].
  - split; [discriminate | intros _; eexists; reflexivity].
Qed.

(** C2. On the empty string, and on every string made of newlines only,
    no line is left after the empty ones are dropped: [lines[0]] is
    [undefined] and [validate] throws a [TypeError] instead of returning
    a list of errors. *)
Theorem validate_throws_on_newlines (n : nat) :
  validate (repeat LF n) = Throw TypeError.
Proof. rewrite validate_lines, nonEmptyLines_newlines. reflexivity. Qed.

(* ================================================================== *)
(** * Header errors *)
(* ================================================================== *)

Lemma jsstring_eqb_eq a b : jsstring_eqb a b = true <-> a = b.
Proof.
  unfold jsstring_eqb. destruct (jsstring_eq_dec a b); split; congruence.
Qed.

Lemma strictEq_false_iff v s : strictEq v s = false <-> v <> Some s.
Proof.
  destruct v as [t|]; simpl.
  - unfold jsstring_eqb. destruct (jsstring_eq_dec t s); split; congruence.
  - split; [discriminate | reflexivity].
Qed.

Lemma headerErrorsAt_mismatch headers i col :
  nth_error columns i = Some col ->
  array_get headers i <> Some (name col) ->
  headerErrorsAt headers i
  = [createError HEADER 0 (Z.of_nat i)
       (headerMessage (name col) (array_get headers i))].
Proof.
  intros Hcol Hne. unfold headerErrorsAt, headerStep. rewrite Hcol.
  apply strictEq_false_iff in Hne. now rewrite Hne.
Qed.

Lemma headerErrorsAt_match headers i col :
  nth_error columns i = Some col ->
  array_get headers i = Some (name col) ->
  headerErrorsAt headers i = [].
Proof.
  intros Hcol Heq. unfold headerErrorsAt, headerStep. rewrite Hcol, Heq.
  simpl. unfold jsstring_eqb.
  destruct (jsstring_eq_dec (name col) (name col)); [reflexivity | congruence].
Qed.




(* ================================================================== *)
(** * Row and cell errors *)
(* ================================================================== *)

Lemma cellErrorsAt_string i cells :
  cellErrorsAt i cells 0
  = if negb (truthy (array_get cells 0))
    then [createError CELL (Z.of_nat i + 1) 0
            (stringMessage (array_get cells 0))]
    else [].
Proof.
  unfold cellErrorsAt, cellStep. simpl nth_error. cbv beta iota.
  simpl type. cbv iota. destruct (negb _); reflexivity.
Qed.

Lemma cellErrorsAt_number i cells j :
  j = 1 \/ j = 2 ->
  cellErrorsAt i cells j
  = if isNaN (Number (array_get cells j))
       || (Number (array_get cells j) <? 0)%float
    then [createError CELL (Z.of_nat i + 1) (Z.of_nat j)
            (numberMessage (array_get cells j))]
    else [].
Proof.
  intros [-> | ->]; unfold cellErrorsAt, cellStep; simpl nth_error;
    cbv beta iota; simpl type; cbv iota; destruct (_ || _); reflexivity.
Qed.

Lemma in_atRow r e errors :
  In e errors -> row e = r -> In e (atRow r errors).
Proof.
  intros He Hr. apply filter_In. split; [assumption|]. now apply Z.eqb_eq.
Qed.


Lemma length_ge_3 {A} (l : list A) :
  3 <= List.length l -> (List.length l <? 3)%nat = false.
Proof. intro H. now apply Nat.ltb_ge. Qed.



Lemma atRow_column_in_cell i line j e errors :
  atRow (Z.of_nat i + 1) errors = rowErrors i line ->
  3 <= List.length (cellsOf line) ->
  j = 1 \/ j = 2 ->
  In e errors ->
  etype e = CELL /\ row e = (Z.of_nat i + 1)%Z /\ column e = Z.of_nat j ->
  In e (cellErrorsAt i (cellsOf line) j).
Proof.
  intros Hrow Hlen Hj He (_ & Hr & Hc).
  apply (in_atRow _ _ _ He) in Hr. rewrite Hrow in Hr.
  rewrite rowErrors_long in Hr by now apply length_ge_3.
  rewrite !in_app_iff in Hr.
  destruct Hr as [Hr|[Hr|Hr]];
    pose proof (cellErrorsAt_located _ _ _ _ Hr) as (_ & _ & Hc');
    rewrite Hc in Hc'; destruct Hj as [-> | ->];
    first [ exact Hr | exfalso; simpl in Hc'; lia ].
Qed.

(** C10. [Number] maps the empty string and ["0"] to zero, which is
    neither [NaN] nor below zero: a price or quantity cell that is blank
    or ["0"] after trimming gets no CELL error. *)
Theorem validate_accepts_zero_and_blank
  contents headersLine bodyLines i line j cell :
  nonEmptyLines contents = headersLine :: bodyLines ->
  nth_error bodyLines i = Some line ->
  3 <= List.length (cellsOf line) ->
  j = 1 \/ j = 2 ->
  nth_error (cellsOf line) j = Some cell ->
  cell = lit "0" \/ cell = [] ->
  StringToNumber cell = 0%float
  /\ exists errors,
       validate contents = Return errors
       /\ forall e, In e errors ->
            ~ (etype e = CELL /\ row e = (Z.of_nat i + 1)%Z
               /\ column e = Z.of_nat j).
Proof.
  intros Hlines Hnth Hlen Hj Hcell Hzero.
  assert (Hnum : StringToNumber cell = 0%float)
    by (destruct Hzero as [-> | ->]; vm_compute; reflexivity).
  split; [assumption|].
  destruct (validate_row contents headersLine bodyLines i line Hlines Hnth)
    as (errors & Hval & Hrow & _).
  exists errors. split; [assumption|]. intros e He Hloc.
  pose proof (atRow_column_in_cell i line j e errors Hrow Hlen Hj He Hloc) as Hin.
  rewrite cellErrorsAt_number in Hin by assumption.
  unfold array_get in Hin. rewrite Hcell in Hin. simpl Number in Hin.
  rewrite Hnum in Hin. exact Hin.
Qed.

(* ================================================================== *)
(** * [parseLine] *)
(* ================================================================== *)

(** The loop of [parseLine] writes the three keys of the schema from the
    cells 0, 1 and 2, whatever else the line holds. *)
Lemma lineItem_cells line :
  lineItem line
  = [ (lit "name", valueOf (array_get (cellsOf line) 0));
      (lit "price", VNumber (Number (array_get (cellsOf line) 1)));
      (lit "quantity", VNumber (Number (array_get (cellsOf line) 2))) ].
Proof. reflexivity. Qed.

Lemma parseLine_item line w :
  parseLine line w
  = (Return (lineItem line ++ [(lit "id", VString (uuids w (issued w)))]),
     afterIds 1 w).
Proof. reflexivity. Qed.

Lemma rowErrors_first_three i line c0 c1 c2 extra :
  cellsOf line = c0 :: c1 :: c2 :: extra ->
  rowErrors i line
  = cellErrorsAt i [c0; c1; c2] 0 ++ cellErrorsAt i [c0; c1; c2] 1
    ++ cellErrorsAt i [c0; c1; c2] 2.
Proof.
  intro Hcells. rewrite rowErrors_long by now rewrite Hcells.
  rewrite Hcells, !cellErrorsAt_string.
  rewrite !(cellErrorsAt_number i _ 1), !(cellErrorsAt_number i _ 2) by tauto.
  reflexivity.
Qed.

(** C9. A body row that splits into more than 3 cells gets no ROW
    error; the errors at its row are the CELL errors of its first three
    cells alone; and [parseLine] maps the cells 0, 1 and 2 onto [name],
    [price] and [quantity], leaving the other cells out of the item. *)
Theorem validate_and_parseLine_ignore_extra_cells
  contents headersLine bodyLines i line c0 c1 c2 c3 extra w :
  nonEmptyLines contents = headersLine :: bodyLines ->
  nth_error bodyLines i = Some line ->
  cellsOf line = c0 :: c1 :: c2 :: c3 :: extra ->
  (exists errors,
     validate contents = Return errors
     /\ (forall e, In e errors -> row e = (Z.of_nat i + 1)%Z ->
                   etype e <> ROW)
     /\ atRow (Z.of_nat i + 1) errors
        = cellErrorsAt i [c0; c1; c2] 0 ++ cellErrorsAt i [c0; c1; c2] 1
          ++ cellErrorsAt i [c0; c1; c2] 2)
  /\ parseLine line w
     = (Return [ (lit "name", VString c0);
                 (lit "price", VNumber (StringToNumber c1));
                 (lit "quantity", VNumber (StringToNumber c2));
                 (lit "id", VString (uuids w (issued w))) ],
        afterIds 1 w).
Proof.
  intros Hlines Hnth Hcells. split.
  - destruct (validate_row contents headersLine bodyLines i line Hlines Hnth)
      as (errors & Hval & Hrow & _).
    exists errors. split; [assumption|].
    rewrite (rowErrors_first_three i line c0 c1 c2 (c3 :: extra) Hcells) in Hrow.
    split; [|assumption].
    intros e He Hr Hty. apply (in_atRow _ _ _ He) in Hr.
    rewrite Hrow, !in_app_iff in Hr.
    destruct Hr as [Hr|[Hr|Hr]];
      apply cellErrorsAt_located in Hr as (Hcell & _); congruence.
  - rewrite parseLine_item, lineItem_cells, Hcells. reflexivity.
Qed.

(* ================================================================== *)
(** * [parse] *)
(* ================================================================== *)

Lemma afterIds_0 w : afterIds 0 w = w.
Proof. now destruct w. Qed.

Lemma afterIds_S n w : afterIds n (afterIds 1 w) = afterIds (S n) w.
Proof. unfold afterIds. simpl. f_equal. lia. Qed.

Lemma mapM_parseLine lines : forall w,
  mapM parseLine lines w
  = (Return (itemsFrom (uuids w) (issued w) lines),
     afterIds (List.length lines) w).
Proof.
  induction lines as [|line r IH]; intro w.
  - simpl. now rewrite afterIds_0.
  - simpl mapM. unfold bind at 1. rewrite parseLine_item.
    unfold bind at 1. rewrite IH. unfold ret. simpl.
    now rewrite afterIds_S.
Qed.

(** The three ways [parse] ends on a file that can be read. *)
Lemma parse_cases path w contents :
  files w path = Some contents ->
  parse path w
  = match validate contents with
    | Throw e => (Throw e, w)
    | Return [] =>
        let lines := tl (nonEmptyLines contents) in
        let items := itemsFrom (uuids w) (issued w) lines in
        (Return {| items := items; total := roundTo 2 (calcTotal items) |},
         afterIds (List.length lines) w)
    | Return (e :: errors) =>
        (Throw (Error (lit "Validation failed!")), afterLog (e :: errors) w)
    end.
Proof.
  intro Hfile. unfold parse, bind at 1, readFileSync. rewrite Hfile.
  destruct (validate contents) as [[|e errors]|e]; simpl.
  - rewrite afterFirst_tl. unfold bind. rewrite mapM_parseLine. reflexivity.
  - reflexivity.
  - reflexivity.
Qed.

Lemma itemsFrom_length ids lines : forall k,
  List.length (itemsFrom ids k lines) = List.length lines.
Proof. induction lines as [|l r IH]; intro k; simpl; [|rewrite IH]; reflexivity. Qed.


Lemma itemsFrom_in ids lines : forall k it,
  In it (itemsFrom ids k lines) ->
  exists i line, nth_error lines i = Some line /\ it = itemOf line (ids (k + i)).
Proof.
  induction lines as [|l r IH]; intros k it; simpl; [intros []|].
  intros [<-|Hin].
  - exists 0, l. now rewrite Nat.add_0_r.
  - apply IH in Hin as (i & line & Hnth & ->).
    exists (S i), line. split; [assumption|]. do 2 f_equal. lia.
Qed.

(** A file that validates has a header line, and each of its body lines
    has at least three cells and no cell error. *)
Lemma validate_ok_rows contents :
  validate contents = Return [] ->
  exists headersLine,
    nonEmptyLines contents = headersLine :: tl (nonEmptyLines contents)
    /\ forall i line,
         nth_error (tl (nonEmptyLines contents)) i = Some line ->
         rowErrors i line = [].
Proof.
  intro Hval. generalize Hval. rewrite validate_lines.
  destruct (nonEmptyLines contents) as [|h body] eqn:Hlines; [discriminate|].
  intros _. exists h. split; [reflexivity|]. simpl. intros i line Hnth.
  destruct (validate_row contents h body i line Hlines Hnth)
    as (errors & Hval' & Hrow & _).
  rewrite Hval in Hval'. injection Hval' as <-. now rewrite <- Hrow.
Qed.

Lemma rowErrors_nil_cells i line :
  rowErrors i line = [] ->
  exists c0 c1 c2 extra,
    cellsOf line = c0 :: c1 :: c2 :: extra
    /\ c0 <> []
    /\ isNaN (StringToNumber c1) || (StringToNumber c1 <? 0)%float = false
    /\ isNaN (StringToNumber c2) || (StringToNumber c2 <? 0)%float = false.
Proof.
  intro Hnil.
  destruct (List.length (cellsOf line) <? 3)%nat eqn:Hlen.
  - rewrite rowErrors_short in Hnil by assumption. discriminate.
  - apply Nat.ltb_ge in Hlen.
    destruct (cellsOf line) as [|c0 [|c1 [|c2 extra]]] eqn:Hcells;
      try (simpl in Hlen; lia).
    rewrite (rowErrors_first_three i line c0 c1 c2 extra Hcells) in Hnil.
    apply app_eq_nil in Hnil as (H0 & Hnil).
    apply app_eq_nil in Hnil as (H1 & H2).
    rewrite cellErrorsAt_string in H0.
    rewrite cellErrorsAt_number in H1, H2 by tauto.
    unfold array_get in *. simpl nth_error in *. simpl Number in *.
    exists c0, c1, c2, extra. repeat split.
    + intros ->. simpl in H0. discriminate.
    + destruct (_ || _); [discriminate | reflexivity].
    + destruct (isNaN (StringToNumber c2) || _); [discriminate | reflexivity].
Qed.

(* ================================================================== *)
(** * Numbers *)
(* ================================================================== *)

Lemma Prim2SF_zero : Prim2SF 0%float = S754_zero false.
Proof. reflexivity. Qed.

(** A number that is neither [NaN] nor below zero is at least zero. *)
Lemma not_negative x :
  isNaN x || (x <? 0)%float = false -> nonNegative x.
Proof.
  unfold nonNegative, isNaN, is_nan.
  rewrite eqb_spec, ltb_spec, leb_spec, Prim2SF_zero.
  unfold SFeqb, SFltb, SFleb.
  destruct (Prim2SF x) as [s|s| |s m e]; simpl;
    try destruct s; simpl; try reflexivity; try discriminate.
  - rewrite Z.compare_refl, Pos.compare_cont_refl. discriminate.
Qed.

(** Addition of doubles is commutative. *)
Lemma SFadd_comm a b : SF64add a b = SF64add b a.
Proof.
  unfold SF64add, SFadd.
  destruct a as [sa|sa| |sa ma ea], b as [sb|sb| |sb mb eb];
    try reflexivity; try (destruct sa, sb; reflexivity).
  rewrite (Z.min_comm eb ea). f_equal. apply Z.add_comm.
Qed.

Lemma add_comm (x y : float) : (x + y = y + x)%float.
Proof. apply Prim2SF_inj. rewrite !add_spec. apply SFadd_comm. Qed.

(** Adding to [+0]: every number but [-0] is left as it is. *)
Lemma SFadd_zero_l a :
  SF64add (S754_zero false) a
  = match a with S754_zero true => S754_zero false | _ => a end.
Proof. destruct a as [[|]|[|]| |s m e]; reflexivity. Qed.

Lemma SFadd_swap_from_zero a b :
  SF64add (SF64add (S754_zero false) a) b
  = SF64add (SF64add (S754_zero false) b) a.
Proof.
  rewrite !SFadd_zero_l.
  destruct a as [[|]|sa| |sa ma ea], b as [[|]|sb| |sb mb eb];
    try reflexivity; apply SFadd_comm.
Qed.

(** The first two terms of a sum that starts from [0] can be exchanged. *)
Lemma add_swap_from_zero (x y : float) : (0 + x + y = 0 + y + x)%float.
Proof.
  apply Prim2SF_inj. rewrite !add_spec, Prim2SF_zero.
  apply SFadd_swap_from_zero.
Qed.

(* ================================================================== *)
(** * [calcTotal] *)
(* ================================================================== *)

Lemma fold_subtotal items : forall acc,
  fold_left
    (fun acc cur =>
       (acc + ToNumber (get cur (lit "price"))
              * ToNumber (get cur (lit "quantity")))%float)
    items acc
  = fold_left PrimFloat.add (map subtotal items) acc.
Proof.
  induction items as [|it r IH]; intro acc; simpl; [reflexivity|].
  now rewrite IH.
Qed.

Lemma calcTotal_fold items :
  calcTotal items = fold_left PrimFloat.add (map subtotal items) 0%float.
Proof. apply fold_subtotal. Qed.

(** C7, as the code has it. [calcTotal] adds the products
    [price * quantity] from left to right, starting from [0], in double
    precision; it is [0] on the empty sequence; and exchanging the first
    two items leaves the result unchanged, since the addition of doubles
    is commutative. *)
Theorem calcTotal_left_sum :
  (forall items,
     calcTotal items = fold_left PrimFloat.add (map subtotal items) 0%float)
  /\ calcTotal [] = 0%float
  /\ (forall a b rest, calcTotal (a :: b :: rest) = calcTotal (b :: a :: rest)).
Proof.
  split; [exact calcTotal_fold|]. split; [reflexivity|].
  intros a b rest. rewrite !calcTotal_fold. simpl.
  now rewrite add_swap_from_zero.
Qed.

(** C7 as stated fails: the addition of doubles is not associative, and
    three items priced 0.1, 0.2 and 0.3 add up to 0.6000000000000001 in
    this order and to 0.6 in the opposite order. *)
Lemma calcTotal_depends_on_order :
  Permutation dimes dimesReversed
  /\ calcTotal dimes = 0.6000000000000001%float
  /\ calcTotal dimesReversed = 0.6%float
  /\ calcTotal dimes <> calcTotal dimesReversed.
Proof.
  split; [exact (Permutation_rev dimes)|].
  split; [vm_compute; reflexivity|].
  split; [vm_compute; reflexivity|].
  intro H.
  apply (f_equal (fun x => (x =? calcTotal dimesReversed)%float)) in H.
  vm_compute in H. discriminate.
Qed.

(* ================================================================== *)
(** * The result of [parse] *)
(* ================================================================== *)

Lemma itemOf_cells line id c0 c1 c2 extra :
  cellsOf line = c0 :: c1 :: c2 :: extra ->
  itemOf line id
  = [ (lit "name", VString c0);
      (lit "price", VNumber (StringToNumber c1));
      (lit "quantity", VNumber (StringToNumber c2));
      (lit "id", VString id) ].
Proof. intro Hcells. unfold itemOf. now rewrite lineItem_cells, Hcells. Qed.


(** C3. [parse] throws the error [Validation failed!] exactly when
    [validate] returns a non-empty list; the error thrown is this one
    value whatever the list, which goes to [console.error] only; and
    when [validate] returns the empty list, [parse] returns a result. *)
Theorem parse_fails_iff_validate_reports path w contents :
  files w path = Some contents ->
  (fst (parse path w) = Throw (Error (lit "Validation failed!"))
   <-> exists errors, validate contents = Return errors /\ errors <> [])
  /\ (forall errors,
        validate contents = Return errors -> errors <> [] ->
        parse path w
        = (Throw (Error (lit "Validation failed!")), afterLog errors w))
  /\ (validate contents = Return [] ->
      exists result, fst (parse path w) = Return result).
Proof.
  intro Hfile. rewrite (parse_cases path w contents Hfile), validate_lines.
  destruct (nonEmptyLines contents) as [|h body].
  - split; [|split]; try discriminate.
    split; [discriminate|]. intros (errors & Heq & _). discriminate.
  - destruct (_ ++ _) as [|e errors]; cbv zeta; simpl fst.
    + split; [|split].
      * split; [discriminate|]. intros (errors & Heq & Hne). congruence.
      * intros errors Heq Hne. congruence.
      * intros _. eexists. reflexivity.
    + split; [|split].
      * split; [|reflexivity]. intros _. exists (e :: errors).
        split; [reflexivity | discriminate].
      * intros errors' Heq _. injection Heq as <-. reflexivity.
      * discriminate.
Qed.

(** C8. [parse] returns a result only when [validate] reports no error;
    and when [validate] reports no error, [parse] returns a result in
    which the price and the quantity of every item are numbers that are
    at least zero: they are the numbers [validate] has checked. *)
Theorem parse_items_non_negative path w contents :
  files w path = Some contents ->
  (forall result w',
     parse path w = (Return result, w') -> validate contents = Return [])
  /\ (validate contents = Return [] ->
      exists result w',
        parse path w = (Return result, w')
        /\ forall item, In item (items result) ->
             exists price quantity,
               get item (lit "price") = VNumber price
               /\ get item (lit "quantity") = VNumber quantity
               /\ nonNegative price /\ nonNegative quantity).
Proof.
  intro Hfile. split.
  - intros result w'. rewrite (parse_cases path w contents Hfile).
    destruct (validate contents) as [[|e errors]|e];
      [reflexivity | discriminate | discriminate].
  - intro Hval. rewrite (parse_cases path w contents Hfile), Hval. cbv zeta.
    eexists. eexists. split; [reflexivity|]. simpl items.
    intros item Hin.
    apply itemsFrom_in in Hin as (i & line & Hnth & ->).
    destruct (validate_ok_rows contents Hval) as (h & _ & Hrows).
    destruct (rowErrors_nil_cells i line (Hrows i line Hnth))
      as (c0 & c1 & c2 & extra & Hcells & _ & Hprice & Hquantity).
    rewrite (itemOf_cells line _ c0 c1 c2 extra Hcells).
    exists (StringToNumber c1), (StringToNumber c2).
    split; [reflexivity|]. split; [reflexivity|].
    split; now apply not_negative.
Qed.

(* ================================================================== *)
(** * The properties at the inputs of the tests *)
(* ================================================================== *)


(** The file with the header [Priiice] makes [parse] fail, and its
    error goes to the console. *)
Lemma parse_fails_iff_validate_reports_witness :
  fst (parse [] (Tests.mocked Tests.incorrectData))
  = Throw (Error (lit "Validation failed!"))
  /\ console (snd (parse [] (Tests.mocked Tests.incorrectData)))
     = [[createError HEADER 0 1
           (lit "Expected header to be named " ++ [QUOTE] ++ lit "Price"
            ++ [QUOTE] ++ lit " but received Priiice.")]].
Proof.
  destruct (parse_fails_iff_validate_reports []
              (Tests.mocked Tests.incorrectData) Tests.incorrectData eq_refl)
    as (Hiff & Hlog & _).
  split.
  - apply Hiff. eexists. split; [vm_compute; reflexivity | discriminate].
  - rewrite (Hlog _ ltac:(vm_compute; reflexivity) ltac:(discriminate)).
    reflexivity.
Defined.




(** The items of the sample file have prices and quantities that are at
    least zero. *)
Lemma parse_items_non_negative_witness :
  exists result w',
    parse [] (Tests.mocked Tests.correctData) = (Return result, w')
    /\ forall item, In item (items result) ->
         exists price quantity,
           get item (lit "price") = VNumber price
           /\ get item (lit "quantity") = VNumber quantity
           /\ nonNegative price /\ nonNegative quantity.
Proof.
  exact (proj2 (parse_items_non_negative [] (Tests.mocked Tests.correctData)
                  Tests.correctData eq_refl)
           ltac:(vm_compute; reflexivity)).
Defined.

(** A row with a fourth cell: no ROW error, and the item leaves the
    fourth cell out. *)
Lemma validate_and_parseLine_ignore_extra_cells_witness :
  (exists errors,
     validate (Tests.header ++ [LF] ++ Tests.longRow) = Return errors
     /\ (forall e, In e errors -> row e = 1%Z -> etype e <> ROW)
     /\ atRow 1 errors = [])
  /\ parseLine Tests.longRow (Tests.mocked [])
     = (Return (Tests.cartItem "a" 1 2), afterIds 1 (Tests.mocked [])).
Proof.
  exact (validate_and_parseLine_ignore_extra_cells
           (Tests.header ++ [LF] ++ Tests.longRow)
           Tests.header [Tests.longRow] 0
           Tests.longRow (lit "a") (lit "1") (lit "2") (lit "zzz") []
           (Tests.mocked [])
           ltac:(vm_compute; reflexivity) eq_refl
           ltac:(vm_compute; reflexivity)).
Defined.

(** A row with a blank price and the quantity [0] has no CELL error at
    column 1. *)
Lemma validate_accepts_zero_and_blank_witness :
  StringToNumber [] = 0%float
  /\ exists errors,
       validate (Tests.header ++ [LF] ++ Tests.blankRow) = Return errors
       /\ forall e, In e errors ->
            ~ (etype e = CELL /\ row e = 1%Z /\ column e = 1%Z).
Proof.
  exact (validate_accepts_zero_and_blank
           (Tests.header ++ [LF] ++ Tests.blankRow)
           Tests.header [Tests.blankRow] 0 Tests.blankRow 1 []
           ltac:(vm_compute; reflexivity) eq_refl
           ltac:(vm_compute; lia) (or_introl eq_refl)
           ltac:(vm_compute; reflexivity) (or_intror eq_refl)).
Defined.

(* ================================================================== *)
(** * Further properties of [validate] *)
(* ================================================================== *)

Lemma nonEmptyLines_cons_other c contents :
  c <> LF -> nonEmptyLines (c :: contents) <> [].
Proof.
  intro Hc. unfold nonEmptyLines. simpl.
  destruct (N.eqb_spec c LF) as [Heq|_]; [contradiction|].
  destruct (split LF contents); simpl; discriminate.
Qed.

Lemma nonEmptyLines_nil_iff contents :
  nonEmptyLines contents = [] <-> Forall (eq LF) contents.
Proof.
  induction contents as [|c r IH].
  - split; [constructor | reflexivity].
  - destruct (N.eq_dec c LF) as [->|Hc].
    + rewrite nonEmptyLines_LF, IH. split.
      * intro H. now constructor.
      * intro H. now inversion H.
    + split.
      * intro H. now apply nonEmptyLines_cons_other in H.
      * intro H. inversion H; subst. congruence.
Qed.

(** X1. [validate] throws exactly on the contents made of newlines only
    (the empty string among them), what it throws is the [TypeError],
    and on every other string it returns a list of errors. *)
Theorem validate_throws_iff_blank contents :
  (validate contents = Throw TypeError <-> Forall (eq LF) contents)
  /\ (forall e, validate contents = Throw e -> e = TypeError)
  /\ ((exists errors, validate contents = Return errors)
      <-> ~ Forall (eq LF) contents).
Proof.
  rewrite <- nonEmptyLines_nil_iff, validate_lines.
  destruct (nonEmptyLines contents) as [|h body].
  - split; [tauto|]. split; [congruence|].
    split; [intros [errors H]; discriminate | tauto].
  - split; [split; discriminate|]. split; [discriminate|].
    split; [discriminate | intros _; eexists; reflexivity].
Qed.

Lemma in_bodyErrorsFrom_inv bodyLines : forall k e,
  In e (bodyErrorsFrom k bodyLines) ->
  exists i line,
    nth_error bodyLines i = Some line /\ In e (rowErrors (k + i) line).
Proof.
  induction bodyLines as [|l r IH]; intros k e; simpl; [intros []|].
  rewrite in_app_iff. intros [H|H].
  - exists 0, l. now rewrite Nat.add_0_r.
  - apply IH in H as (i & line & Hnth & Hin).
    exists (S i), line. split; [assumption|].
    now replace (k + S i) with (S k + i) by lia.
Qed.

Lemma rowErrors_cases i line e :
  In e (rowErrors i line) ->
  row e = (Z.of_nat i + 1)%Z
  /\ ((etype e = ROW /\ column e = (-1)%Z)
      \/ (etype e = CELL /\ (0 <= column e < 3)%Z)).
Proof.
  intro He. split; [now apply rowErrors_row in He|].
  destruct (List.length (cellsOf line) <? 3)%nat eqn:Hlen.
  - rewrite rowErrors_short in He by assumption.
    destruct He as [<-|[]]. now left.
  - rewrite rowErrors_long in He by assumption. rewrite !in_app_iff in He.
    right. destruct He as [He|[He|He]];
      apply cellErrorsAt_located in He as (-> & _ & ->);
      (split; [reflexivity | simpl; lia]).
Qed.

(** X2. Every error [validate] returns follows the positional
    convention: a HEADER error is at row 0 and a column from 0 to 2; a
    ROW error is at column -1 and a CELL error at a column from 0 to 2,
    both at a row from 1 to the number of body lines. *)
Theorem validate_error_positions contents errors e :
  validate contents = Return errors ->
  In e errors ->
  (etype e = HEADER /\ row e = 0%Z /\ (0 <= column e < 3)%Z)
  \/ ((1 <= row e <= Z.of_nat (List.length (tl (nonEmptyLines contents))))%Z
      /\ ((etype e = ROW /\ column e = (-1)%Z)
          \/ (etype e = CELL /\ (0 <= column e < 3)%Z))).
Proof.
  rewrite validate_lines.
  destruct (nonEmptyLines contents) as [|h body]; [discriminate|].
  intros Hval He. injection Hval as <-. simpl tl.
  rewrite !in_app_iff in He.
  destruct He as [He|[He|[He|He]]].
  1-3: left; apply headerErrorsAt_cases in He as (col & _ & _ & ->);
       simpl; repeat split; lia.
  right. apply in_bodyErrorsFrom_inv in He as (i & line & Hnth & He).
  apply rowErrors_cases in He as (Hrow & Hkind).
  split; [|assumption].
  assert (i < List.length body) by (apply nth_error_Some; congruence).
  change (0 + i) with i in Hrow. lia.
Qed.

(** ** The order of the errors *)

Section Sorting.

Context {A : Type} (R : A -> A -> Prop).

Lemma StronglySorted_app (a b : list A) :
  StronglySorted R a -> StronglySorted R b ->
  (forall x y, In x a -> In y b -> R x y) ->
  StronglySorted R (a ++ b).
Proof.
  induction a as [|x a IH]; intros Ha Hb Hab; simpl; [assumption|].
  inversion Ha as [|? ? Hsa Hxa]; subst. constructor.
  - apply IH; [assumption | assumption |].
    intros u v Hu Hv. apply Hab; [now right | assumption].
  - apply Forall_app. split; [assumption|].
    apply Forall_forall. intros v Hv. apply Hab; [now left | assumption].
Qed.

Lemma StronglySorted_small (l : list A) :
  List.length l <= 1 -> StronglySorted R l.
Proof.
  destruct l as [|x [|y l]]; simpl; intro H; [constructor | | lia].
  constructor; constructor.
Qed.

End Sorting.

Lemma headerErrorsAt_small headers i :
  List.length (headerErrorsAt headers i) <= 1.
Proof.
  unfold headerErrorsAt, headerStep.
  destruct (nth_error columns i); [|simpl; lia].
  destruct (negb _); simpl; lia.
Qed.

Lemma cellErrorsAt_small i cells j :
  List.length (cellErrorsAt i cells j) <= 1.
Proof.
  unfold cellErrorsAt, cellStep.
  destruct (nth_error columns j) as [col|]; [|simpl; lia].
  destruct (type col); [destruct (negb _) | destruct (_ || _)]; simpl; lia.
Qed.

Lemma headerErrorsAt_position headers i e :
  In e (headerErrorsAt headers i) -> row e = 0%Z /\ column e = Z.of_nat i.
Proof.
  intro He. apply headerErrorsAt_cases in He as (col & _ & _ & ->). now simpl.
Qed.

Lemma rowErrors_sorted i line : StronglySorted positionLt (rowErrors i line).
Proof.
  destruct (List.length (cellsOf line) <? 3)%nat eqn:Hlen.
  - rewrite rowErrors_short by assumption. apply StronglySorted_small. simpl. lia.
  - rewrite rowErrors_long by assumption.
    repeat apply StronglySorted_app;
      try (apply StronglySorted_small; apply cellErrorsAt_small).
    + intros x y Hx Hy.
      apply cellErrorsAt_located in Hx as (_ & Hrx & Hcx).
      apply cellErrorsAt_located in Hy as (_ & Hry & Hcy).
      right. simpl in *. lia.
    + intros x y Hx Hy. rewrite in_app_iff in Hy.
      apply cellErrorsAt_located in Hx as (_ & Hrx & Hcx).
      destruct Hy as [Hy|Hy];
        apply cellErrorsAt_located in Hy as (_ & Hry & Hcy);
        right; simpl in *; lia.
Qed.

Lemma bodyErrorsFrom_sorted bodyLines : forall k,
  StronglySorted positionLt (bodyErrorsFrom k bodyLines).
Proof.
  induction bodyLines as [|line r IH]; intro k; simpl; [constructor|].
  apply StronglySorted_app; [apply rowErrors_sorted | apply IH |].
  intros x y Hx Hy. left.
  apply rowErrors_row in Hx. apply bodyErrorsFrom_row in Hy. lia.
Qed.

(** X3. The errors [validate] returns are in the order of their
    positions, by row and then by column, each position strictly after
    the one before: no position is reported twice. *)
Theorem validate_errors_sorted contents errors :
  validate contents = Return errors ->
  StronglySorted positionLt errors.
Proof.
  rewrite validate_lines.
  destruct (nonEmptyLines contents) as [|h body]; [discriminate|].
  intro Hval. injection Hval as <-.
  repeat apply StronglySorted_app;
    try (apply StronglySorted_small; apply headerErrorsAt_small);
    try apply bodyErrorsFrom_sorted.
  - intros x y Hx Hy.
    apply headerErrorsAt_position in Hx as (Hrx & Hcx).
    apply bodyErrorsFrom_row in Hy. left. lia.
  - intros x y Hx Hy. rewrite in_app_iff in Hy.
    apply headerErrorsAt_position in Hx as (Hrx & Hcx).
    destruct Hy as [Hy|Hy].
    + apply headerErrorsAt_position in Hy as (Hry & Hcy). right. simpl in *. lia.
    + apply bodyErrorsFrom_row in Hy. left. lia.
  - intros x y Hx Hy. rewrite !in_app_iff in Hy.
    apply headerErrorsAt_position in Hx as (Hrx & Hcx).
    destruct Hy as [Hy|[Hy|Hy]].
    + apply headerErrorsAt_position in Hy as (Hry & Hcy). right. simpl in *. lia.
    + apply headerErrorsAt_position in Hy as (Hry & Hcy). right. simpl in *. lia.
    + apply bodyErrorsFrom_row in Hy. left. lia.
Qed.

(** ** The files [validate] accepts *)

Lemma option_eq_dec_jsstring (a b : option jsstring) : {a = b} + {a <> b}.
Proof. decide equality. apply jsstring_eq_dec. Qed.

Lemma headerErrorsAt_nil_iff headers i col :
  nth_error columns i = Some col ->
  headerErrorsAt headers i = [] <-> nth_error headers i = Some (name col).
Proof.
  intro Hcol. split.
  - intro Hnil.
    destruct (option_eq_dec_jsstring (array_get headers i) (Some (name col)))
      as [Heq|Hne]; [exact Heq|].
    rewrite (headerErrorsAt_mismatch headers i col Hcol Hne) in Hnil.
    discriminate.
  - now apply headerErrorsAt_match.
Qed.

Lemma validHeader_iff headersLine :
  validHeader headersLine
  <-> headerErrorsAt (cellsOf headersLine) 0
      ++ headerErrorsAt (cellsOf headersLine) 1
      ++ headerErrorsAt (cellsOf headersLine) 2 = [].
Proof.
  unfold validHeader. split.
  - intro H.
    rewrite (headerErrorsAt_match _ 0 _ eq_refl),
            (headerErrorsAt_match _ 1 _ eq_refl),
            (headerErrorsAt_match _ 2 _ eq_refl); [reflexivity | | |];
      unfold array_get;
      destruct (cellsOf headersLine) as [|a [|b [|c r]]];
      simpl in H; try discriminate; now inversion H.
  - intro H. apply app_eq_nil in H as (H0 & H).
    apply app_eq_nil in H as (H1 & H2).
    apply (headerErrorsAt_nil_iff _ 0 _ eq_refl) in H0.
    apply (headerErrorsAt_nil_iff _ 1 _ eq_refl) in H1.
    apply (headerErrorsAt_nil_iff _ 2 _ eq_refl) in H2.
    destruct (cellsOf headersLine) as [|a [|b [|c r]]]; try discriminate.
    simpl in *. congruence.
Qed.

Lemma validRow_iff i line : validRow line <-> rowErrors i line = [].
Proof.
  split.
  - intros (c0 & c1 & c2 & extra & Hcells & Hname & Hprice & Hquantity).
    rewrite (rowErrors_first_three i line c0 c1 c2 extra Hcells).
    rewrite cellErrorsAt_string.
    rewrite !cellErrorsAt_number by tauto.
    unfold array_get. simpl nth_error. simpl Number.
    unfold acceptedNumber in *. rewrite Hprice, Hquantity.
    destruct c0; [congruence | reflexivity].
  - intro H. apply rowErrors_nil_cells in H
      as (c0 & c1 & c2 & extra & Hcells & Hname & Hprice & Hquantity).
    now exists c0, c1, c2, extra.
Qed.

Lemma bodyErrorsFrom_nil_iff bodyLines : forall k,
  bodyErrorsFrom k bodyLines = [] <-> Forall validRow bodyLines.
Proof.
  induction bodyLines as [|line r IH]; intro k; simpl.
  - split; [constructor | reflexivity].
  - split.
    + intro H. apply app_eq_nil in H as (Hrow & Hrest).
      constructor; [now apply (validRow_iff k) | now apply (IH (S k))].
    + intro H. inversion H as [|? ? Hrow Hrest]; subst.
      apply (validRow_iff k) in Hrow. apply (IH (S k)) in Hrest.
      now rewrite Hrow, Hrest.
Qed.

(** X4. [validate] returns the empty list exactly for the files whose
    first non-empty line has the three names of the schema as its first
    three trimmed tokens and whose other non-empty lines each have at
    least three cells, the first one not empty after trimming, the
    second and third neither [NaN] nor negative as numbers. *)
Theorem validate_accepts_iff contents :
  validate contents = Return []
  <-> exists headersLine bodyLines,
        nonEmptyLines contents = headersLine :: bodyLines
        /\ validHeader headersLine
        /\ Forall validRow bodyLines.
Proof.
  rewrite validate_lines.
  destruct (nonEmptyLines contents) as [|h body].
  - split; [discriminate | intros (h & body & H & _); discriminate].
  - split.
    + intro H. injection H as H. exists h, body. split; [reflexivity|].
      rewrite !app_assoc in H. apply app_eq_nil in H as (Hh & Hb).
      rewrite <- !app_assoc in Hh.
      split; [now apply validHeader_iff | now apply (bodyErrorsFrom_nil_iff body 0)].
    + intros (h' & body' & Heq & Hh & Hb). injection Heq as <- <-.
      apply validHeader_iff in Hh. apply (bodyErrorsFrom_nil_iff body 0) in Hb.
      rewrite !app_assoc. rewrite <- !app_assoc, Hb, !app_nil_r at 1.
      now rewrite Hh.
Qed.

(** ** Header and body are checked apart *)

Lemma atRow_bodyErrorsFrom_0 bodyLines k :
  atRow 0 (bodyErrorsFrom k bodyLines) = [].
Proof.
  apply atRow_none. intros e He. apply bodyErrorsFrom_row in He. lia.
Qed.

Lemma inBody_app a b : inBody (a ++ b) = inBody a ++ inBody b.
Proof. apply filter_app. Qed.

Lemma inBody_headerErrorsAt headers i : inBody (headerErrorsAt headers i) = [].
Proof.
  unfold inBody. induction (headerErrorsAt headers i) as [|e l IH] eqn:Hl.
  - reflexivity.
  - pose proof (headerErrorsAt_small headers i) as Hsmall. rewrite Hl in Hsmall.
    destruct l; [|simpl in Hsmall; lia].
    assert (He : In e (headerErrorsAt headers i)) by (rewrite Hl; now left).
    apply headerErrorsAt_position in He as (Hr & _). simpl. now rewrite Hr.
Qed.

Lemma inBody_bodyErrorsFrom bodyLines k :
  inBody (bodyErrorsFrom k bodyLines) = bodyErrorsFrom k bodyLines.
Proof.
  unfold inBody. apply forallb_filter_id. apply forallb_forall.
  intros e He. apply bodyErrorsFrom_row in He. apply Z.ltb_lt. lia.
Qed.

(** X5. A wrong header does not stop the validation of the body and the
    errors of the body do not touch those of the header: the errors at
    row 0 are a function of the first three tokens of the header line
    alone, the errors at the rows from 1 on a function of the body lines
    alone, and the returned list is the former followed by the latter. *)
Theorem validate_header_body_apart c1 c2 h1 h2 body1 body2 :
  nonEmptyLines c1 = h1 :: body1 ->
  nonEmptyLines c2 = h2 :: body2 ->
  exists errors1 errors2,
    validate c1 = Return errors1
    /\ validate c2 = Return errors2
    /\ errors1 = atRow 0 errors1 ++ inBody errors1
    /\ (firstn 3 (cellsOf h1) = firstn 3 (cellsOf h2) ->
        atRow 0 errors1 = atRow 0 errors2)
    /\ (body1 = body2 -> inBody errors1 = inBody errors2).
Proof.
  intros H1 H2. rewrite !validate_lines, H1, H2.
  eexists. eexists. split; [reflexivity|]. split; [reflexivity|].
  assert (Hhead : forall h body,
            atRow 0 (headerErrorsAt (cellsOf h) 0 ++ headerErrorsAt (cellsOf h) 1
                     ++ headerErrorsAt (cellsOf h) 2 ++ bodyErrorsFrom 0 body)
            = headerErrorsAt (cellsOf h) 0 ++ headerErrorsAt (cellsOf h) 1
              ++ headerErrorsAt (cellsOf h) 2).
  { intros h body. rewrite !atRow_app, atRow_bodyErrorsFrom_0, app_nil_r.
    rewrite !atRow_all; [reflexivity | | |];
      intros e He; now apply headerErrorsAt_position in He. }
  assert (Hbody : forall h body,
            inBody (headerErrorsAt (cellsOf h) 0 ++ headerErrorsAt (cellsOf h) 1
                    ++ headerErrorsAt (cellsOf h) 2 ++ bodyErrorsFrom 0 body)
            = bodyErrorsFrom 0 body).
  { intros h body. rewrite !inBody_app, !inBody_headerErrorsAt.
    apply inBody_bodyErrorsFrom. }
  rewrite !Hhead, !Hbody. split; [now rewrite <- !app_assoc|]. split.
  - intro Hfirst.
    assert (Hget : forall i, i < 3 ->
              array_get (cellsOf h1) i = array_get (cellsOf h2) i).
    { intros i Hi. unfold array_get.
      pose proof (nth_error_firstn 3 (cellsOf h1) i) as E1.
      pose proof (nth_error_firstn 3 (cellsOf h2) i) as E2.
      apply Nat.ltb_lt in Hi. rewrite Hi in E1, E2.
      now rewrite <- E1, <- E2, Hfirst. }
    unfold headerErrorsAt, headerStep.
    rewrite (Hget 0), (Hget 1), (Hget 2) by lia. reflexivity.
  - now intros ->.
Qed.

(** ** Blank lines *)

Lemma split_app sep a b :
  split sep (a ++ sep :: b) = split sep a ++ split sep b.
Proof.
  induction a as [|c r IH]; simpl.
  - now rewrite N.eqb_refl.
  - destruct (c =? sep)%N; [now rewrite IH|].
    rewrite IH. pose proof (split_not_nil sep r) as Hnil.
    destruct (split sep r); [contradiction | reflexivity].
Qed.

Lemma nonEmptyLines_app a b :
  nonEmptyLines (a ++ LF :: b) = nonEmptyLines a ++ nonEmptyLines b.
Proof. unfold nonEmptyLines. now rewrite split_app, filter_app. Qed.

Lemma validate_same_lines c1 c2 :
  nonEmptyLines c1 = nonEmptyLines c2 -> validate c1 = validate c2.
Proof. intro H. now rewrite !validate_lines, H. Qed.

(** X6. The non-empty lines of two pieces joined by a newline are those
    of the first piece followed by those of the second. Hence [validate]
    does not see blank lines: a doubled newline counts as one, and a
    newline at the start or at the end of the file changes nothing, the
    numbering of the rows included. *)
Theorem validate_ignores_blank_lines a b :
  nonEmptyLines (a ++ LF :: b) = nonEmptyLines a ++ nonEmptyLines b
  /\ validate (a ++ LF :: LF :: b) = validate (a ++ LF :: b)
  /\ validate (LF :: a) = validate a
  /\ validate (a ++ [LF]) = validate a.
Proof.
  split; [apply nonEmptyLines_app|]. split; [|split];
    apply validate_same_lines.
  - rewrite !nonEmptyLines_app. now rewrite nonEmptyLines_LF.
  - apply nonEmptyLines_LF.
  - rewrite nonEmptyLines_app. apply app_nil_r.
Qed.

(** ** Cells and commas *)

Lemma split_length sep s :
  List.length (split sep s) = S (count_occ N.eq_dec s sep).
Proof.
  induction s as [|c r IH]; [reflexivity|]. simpl.
  destruct (N.eqb_spec c sep) as [->|Hne].
  - destruct (N.eq_dec sep sep); [|congruence]. simpl. now rewrite IH.
  - destruct (N.eq_dec c sep); [congruence|]. rewrite <- IH.
    pose proof (split_not_nil sep r) as Hnil.
    destruct (split sep r); [contradiction | reflexivity].
Qed.

Lemma cellsOf_length line :
  List.length (cellsOf line) = S (count_occ N.eq_dec line COMMA).
Proof. unfold cellsOf. now rewrite length_map, split_length. Qed.


(** ** White space around a line *)

Lemma trimStart_all_ws s : forallb isWhiteSpace s = true -> trimStart s = [].
Proof.
  induction s as [|c r IH]; simpl; [reflexivity|].
  intro H. apply andb_prop in H as (Hc & Hr). rewrite Hc. now apply IH.
Qed.

Lemma trimStart_app_l pre s :
  forallb isWhiteSpace pre = true -> trimStart (pre ++ s) = trimStart s.
Proof.
  induction pre as [|c r IH]; simpl; [reflexivity|].
  intro H. apply andb_prop in H as (Hc & Hr). rewrite Hc. now apply IH.
Qed.

Lemma trimStart_app_r s post :
  trimStart (s ++ post)
  = match trimStart s with
    | [] => trimStart post
    | t => t ++ post
    end.
Proof.
  induction s as [|c r IH]; simpl.
  - now destruct (trimStart post).
  - destruct (isWhiteSpace c); [exact IH | reflexivity].
Qed.

Lemma trimEnd_app_r s post :
  forallb isWhiteSpace post = true -> trimEnd (s ++ post) = trimEnd s.
Proof.
  intro H. unfold trimEnd. rewrite rev_app_distr, trimStart_app_l; [reflexivity|].
  rewrite forallb_forall in *. intros c Hc. apply H. now apply in_rev.
Qed.

(** White space on either side of a string is lost by [trim]. *)
Lemma trim_pad pre s post :
  forallb isWhiteSpace pre = true -> forallb isWhiteSpace post = true ->
  trim (pre ++ s ++ post) = trim s.
Proof.
  intros Hpre Hpost. unfold trim.
  rewrite trimStart_app_l by assumption. rewrite trimStart_app_r.
  destruct (trimStart s) as [|c t] eqn:Hs.
  - now rewrite trimStart_all_ws.
  - now apply trimEnd_app_r.
Qed.

Lemma not_in_ws sep s :
  isWhiteSpace sep = false -> forallb isWhiteSpace s = true -> ~ In sep s.
Proof.
  intros Hsep Hs Hin. rewrite forallb_forall in Hs. apply Hs in Hin. congruence.
Qed.

Lemma split_app_l sep pre s :
  ~ In sep pre ->
  split sep (pre ++ s)
  = match split sep s with
    | p :: ps => (pre ++ p) :: ps
    | [] => []
    end.
Proof.
  induction pre as [|c r IH]; intro Hnot; simpl.
  - now destruct (split sep s).
  - destruct (N.eqb_spec c sep) as [->|Hne]; [exfalso; apply Hnot; now left|].
    rewrite IH by (intro H; apply Hnot; now right).
    pose proof (split_not_nil sep s) as Hnil.
    destruct (split sep s); [contradiction | reflexivity].
Qed.

Lemma split_app_r sep s post :
  ~ In sep post ->
  exists init last,
    split sep s = init ++ [last]
    /\ split sep (s ++ post) = init ++ [last ++ post].
Proof.
  intro Hnot. induction s as [|c r (init & last & Hs & Hsp)]; simpl.
  - exists [], []. split; [reflexivity|].
    pose proof (split_app_l sep post [] Hnot) as H.
    rewrite app_nil_r in H. simpl in H. now rewrite app_nil_r in H.
  - rewrite Hs, Hsp. destruct (c =? sep)%N.
    + exists ([] :: init), last. now split.
    + destruct init as [|p ps]; simpl.
      * exists [], (c :: last). now split.
      * exists ((c :: p) :: ps), last. now split.
Qed.

Lemma cellsOf_pad pre line post :
  forallb isWhiteSpace pre = true -> forallb isWhiteSpace post = true ->
  cellsOf (pre ++ line ++ post) = cellsOf line.
Proof.
  intros Hpre Hpost. unfold cellsOf.
  assert (Hcomma : isWhiteSpace COMMA = false) by reflexivity.
  rewrite split_app_l by now apply not_in_ws.
  destruct (split_app_r COMMA line post (not_in_ws _ _ Hcomma Hpost))
    as (init & last & Hs & Hsp).
  rewrite Hs, Hsp. destruct init as [|p ps]; simpl.
  - f_equal. now apply trim_pad.
  - rewrite !map_app. simpl. f_equal.
    + pose proof (trim_pad pre p [] Hpre eq_refl) as H.
      now rewrite app_nil_r in H.
    + f_equal. f_equal. exact (trim_pad [] last post eq_refl Hpost).
Qed.

(** X8. White space before and after a line (the indentation of a
    row, a carriage return left by a Windows line ending) is lost with
    the trimming of the cells: the line has the same cells, [validate]
    reports the same for it, and [parseLine] builds the same item. *)
Theorem line_padding_is_ignored pre line post :
  forallb isWhiteSpace pre = true ->
  forallb isWhiteSpace post = true ->
  cellsOf (pre ++ line ++ post) = cellsOf line
  /\ (forall i errors,
        rowBody i (pre ++ line ++ post) errors = rowBody i line errors)
  /\ (forall w, parseLine (pre ++ line ++ post) w = parseLine line w).
Proof.
  intros Hpre Hpost.
  pose proof (cellsOf_pad pre line post Hpre Hpost) as Hcells.
  split; [assumption|]. split.
  - intros i errors. unfold rowBody. now rewrite Hcells.
  - intro w. rewrite !parseLine_item, !lineItem_cells. now rewrite Hcells.
Qed.

Lemma line_padding_is_ignored_witness :
  cellsOf ([Tests.TAB; Tests.TAB] ++ lit "a , 1,2" ++ [13%N])
  = [lit "a"; lit "1"; lit "2"].
Proof.
  exact (proj1 (line_padding_is_ignored [Tests.TAB; Tests.TAB]
                  (lit "a , 1,2") [13%N] eq_refl eq_refl)).
Defined.

(* ================================================================== *)
(** * Further properties of [parseLine] and [calcTotal] *)
(* ================================================================== *)

(** X9. [parseLine] does not check its line: whatever the line, it
    returns an item with the keys [name], [price], [quantity] and [id]
    in this order and takes one identifier; the name is the first cell,
    a line with fewer than two commas gets the quantity [NaN], and a
    line without comma also the price [NaN]. *)
Theorem parseLine_any_line line w :
  exists item,
    parseLine line w = (Return item, afterIds 1 w)
    /\ map fst item = [lit "name"; lit "price"; lit "quantity"; lit "id"]
    /\ (exists c0 rest, cellsOf line = c0 :: rest
                        /\ get item (lit "name") = VString c0)
    /\ idOf item = VString (uuids w (issued w))
    /\ (count_occ N.eq_dec line COMMA < 2 ->
        get item (lit "quantity") = VNumber nan)
    /\ (count_occ N.eq_dec line COMMA < 1 ->
        get item (lit "price") = VNumber nan).
Proof.
  eexists. split; [apply parseLine_item|].
  rewrite lineItem_cells. split; [reflexivity|].
  pose proof (cellsOf_length line) as Hlen.
  destruct (cellsOf line) as [|c0 [|c1 [|c2 extra]]] eqn:Hcells;
    simpl in Hlen; try lia.
  - split; [now exists c0, []|]. split; [reflexivity|].
    split; reflexivity.
  - split; [now exists c0, [c1]|]. split; [reflexivity|].
    split; [reflexivity | lia].
  - split; [now exists c0, (c1 :: c2 :: extra)|]. split; [reflexivity|].
    split; lia.
Qed.

(** ** [NaN] *)

Lemma SFcompare_refl p : p <> S754_nan -> SFcompare p p = Some Eq.
Proof.
  destruct p as [s|s| |s m e]; intro H; simpl; try congruence.
  - now destruct s.
  - destruct s; rewrite Z.compare_refl, Pos.compare_cont_refl; reflexivity.
Qed.

Lemma isNaN_spec x : isNaN x = true <-> Prim2SF x = S754_nan.
Proof.
  unfold isNaN, is_nan. rewrite eqb_spec. unfold SFeqb.
  destruct (Prim2SF x) as [s|s| |s m e] eqn:Hx.
  2,3: simpl; try destruct s; simpl; split; congruence.
  - simpl. split; congruence.
  - rewrite SFcompare_refl by discriminate. simpl. split; congruence.
Qed.

Lemma add_nan_l x y : isNaN x = true -> isNaN (x + y)%float = true.
Proof.
  rewrite !isNaN_spec, add_spec. intros ->. reflexivity.
Qed.

Lemma add_nan_r x y : isNaN y = true -> isNaN (x + y)%float = true.
Proof.
  rewrite !isNaN_spec, add_spec. intros ->. now destruct (Prim2SF x).
Qed.

Lemma mul_nan_l x y : isNaN x = true -> isNaN (x * y)%float = true.
Proof.
  rewrite !isNaN_spec, mul_spec. intros ->. reflexivity.
Qed.

Lemma mul_nan_r x y : isNaN y = true -> isNaN (x * y)%float = true.
Proof.
  rewrite !isNaN_spec, mul_spec. intros ->. now destruct (Prim2SF x).
Qed.

Lemma fold_add_nan l : forall acc,
  isNaN acc = true -> isNaN (fold_left PrimFloat.add l acc) = true.
Proof.
  induction l as [|x l IH]; intros acc H; simpl; [assumption|].
  apply IH. now apply add_nan_l.
Qed.

Lemma fold_add_nan_term l : forall acc,
  (exists x, In x l /\ isNaN x = true) ->
  isNaN (fold_left PrimFloat.add l acc) = true.
Proof.
  induction l as [|y l IH]; intros acc (x & Hin & Hx); simpl; [destruct Hin|].
  destruct Hin as [->|Hin].
  - apply fold_add_nan. now apply add_nan_r.
  - apply IH. now exists x.
Qed.

(** X10. [NaN] is absorbing in [calcTotal]: when the price or the
    quantity of one item is [NaN] as a number (a property that is
    missing, a string that is no number), the total is [NaN], whatever
    the other items and wherever the item stands. *)
Theorem calcTotal_nan items item :
  In item items ->
  isNaN (ToNumber (get item (lit "price"))) = true
  \/ isNaN (ToNumber (get item (lit "quantity"))) = true ->
  isNaN (calcTotal items) = true.
Proof.
  intros Hin Hnan. rewrite calcTotal_fold. apply fold_add_nan_term.
  exists (subtotal item). split; [now apply in_map|].
  unfold subtotal. destruct Hnan; [now apply mul_nan_l | now apply mul_nan_r].
Qed.

Lemma calcTotal_nan_witness :
  isNaN (calcTotal [ Tests.cartItem "a" 1 2;
                     [(lit "name", VString (lit "b"));
                      (lit "quantity", VNumber 3)] ]) = true.
Proof.
  apply (calcTotal_nan _ [(lit "name", VString (lit "b"));
                          (lit "quantity", VNumber 3)]).
  - right. now left.
  - left. reflexivity.
Defined.

(* ================================================================== *)
(** * Further properties of [parse] *)
(* ================================================================== *)

(** X11. What [parse] does to its collaborators. It never changes the
    file system nor the identifier source. When it returns, it has
    taken one identifier per item and written nothing to the console.
    When it throws, it has taken no identifier; it throws the read
    error, the [TypeError] of [validate] or [Validation failed!], and
    only in the last case has it written to the console: once, the
    non-empty list of errors. *)
Theorem parse_effects path w :
  files (snd (parse path w)) = files w
  /\ uuids (snd (parse path w)) = uuids w
  /\ match fst (parse path w) with
     | Return result =>
         issued (snd (parse path w))
         = List.length (items result) + issued w
         /\ console (snd (parse path w)) = console w
     | Throw e =>
         issued (snd (parse path w)) = issued w
         /\ ((e = ReadError \/ e = TypeError)
             /\ console (snd (parse path w)) = console w
             \/ e = Error (lit "Validation failed!")
                /\ exists errors,
                     errors <> []
                     /\ console (snd (parse path w)) = console w ++ [errors])
     end.
Proof.
  destruct (files w path) as [contents|] eqn:Hfile.
  - rewrite (parse_cases path w contents Hfile), validate_lines.
    destruct (nonEmptyLines contents) as [|h body].
    + simpl. repeat split; auto.
    + destruct (_ ++ _) as [|e errors]; cbv zeta; simpl.
      * rewrite itemsFrom_length. repeat split; reflexivity.
      * repeat split; try reflexivity. right. split; [reflexivity|].
        exists (e :: errors). split; [discriminate | reflexivity].
  - unfold parse, bind, readFileSync. rewrite Hfile. simpl.
    repeat split; auto.
Qed.

(** ** The identifiers of the items *)

Lemma idOf_itemOf line id : idOf (itemOf line id) = VString id.
Proof. unfold idOf, itemOf. rewrite lineItem_cells. reflexivity. Qed.

Lemma in_ids_itemsFrom ids lines : forall k v,
  In v (map idOf (itemsFrom ids k lines)) ->
  exists j, k <= j /\ v = VString (ids j).
Proof.
  induction lines as [|l r IH]; intros k v; simpl; [intros []|].
  rewrite idOf_itemOf. intros [<-|Hin].
  - exists k. split; [lia | reflexivity].
  - apply IH in Hin as (j & Hj & ->). exists j. split; [lia | reflexivity].
Qed.

Lemma ids_itemsFrom_NoDup ids lines :
  (forall m n, ids m = ids n -> m = n) ->
  forall k, NoDup (map idOf (itemsFrom ids k lines)).
Proof.
  intro Hinj. induction lines as [|l r IH]; intro k; simpl; constructor.
  - rewrite idOf_itemOf. intro Hin.
    apply in_ids_itemsFrom in Hin as (j & Hj & Heq).
    injection Heq as Heq. apply Hinj in Heq. lia.
  - apply IH.
Qed.

(** X12. When the identifier source never gives the same identifier
    twice, the items [parse] returns have pairwise distinct [id]s. *)
Theorem parse_ids_distinct path w result w' :
  (forall m n, uuids w m = uuids w n -> m = n) ->
  parse path w = (Return result, w') ->
  NoDup (map idOf (items result)).
Proof.
  intros Hinj Hparse.
  destruct (files w path) as [contents|] eqn:Hfile.
  - rewrite (parse_cases path w contents Hfile) in Hparse.
    destruct (validate contents) as [[|e errors]|e]; try discriminate.
    cbv zeta in Hparse. injection Hparse as <- _. simpl.
    now apply ids_itemsFrom_NoDup.
  - unfold parse, bind, readFileSync in Hparse. rewrite Hfile in Hparse.
    discriminate.
Qed.

Lemma tally_injective m n : tally m = tally n -> m = n.
Proof.
  intro H. apply (f_equal (@List.length _)) in H.
  unfold tally in H. now rewrite !repeat_length in H.
Qed.

Lemma parse_ids_distinct_witness :
  exists result w',
    parse [] {| files := fun _ => Some Tests.validData; uuids := tally;
                issued := 0; console := [] |}
    = (Return result, w')
    /\ NoDup (map idOf (items result)).
Proof.
  eexists. eexists. split; [vm_compute; reflexivity|].
  eapply (parse_ids_distinct []
            {| files := fun _ => Some Tests.validData; uuids := tally;
               issued := 0; console := [] |} _ _ tally_injective).
  vm_compute. reflexivity.
Defined.

(** ** The sign of the total *)

Lemma signless_round_aux m e l :
  signless (binary_round_aux prec emax false m e l).
Proof.
  unfold binary_round_aux.
  destruct (shr_fexp prec emax m e l) as [mrs e'].
  destruct (shr_fexp prec emax _ e' loc_Exact) as [mrs' e''].
  destruct (shr_m mrs'); [exact I | | exact I].
  destruct (Z.leb _ _); reflexivity.
Qed.

Lemma signless_round m e : signless (binary_round prec emax false m e).
Proof.
  unfold binary_round. destruct (shl_align _ _ _) as [mz ez].
  apply signless_round_aux.
Qed.

Lemma signless_normalize z e :
  (0 <= z)%Z -> signless (binary_normalize prec emax z e false).
Proof.
  destruct z; simpl; intro H; [exact I | apply signless_round | lia].
Qed.

Lemma signless_ldexp f e : signless f -> signless (SFldexp prec emax f e).
Proof.
  destruct f as [s|s| |s m k]; simpl; try tauto.
  intros ->. apply signless_round.
Qed.

(** The double of a specification without sign has no sign. *)
Lemma signless_SF2Prim f : signless f -> signless (Prim2SF (SF2Prim f)).
Proof.
  destruct f as [s|s| |s m e]; simpl.
  - intros _. now destruct s.
  - now intros ->.
  - intros _. exact I.
  - intros ->. rewrite Z_ldexp_spec, of_uint63_spec.
    apply signless_ldexp, signless_normalize, Uint63.to_Z_bounded.
Qed.

Lemma signless_add a b :
  signless a -> signless b -> signless (SF64add a b).
Proof.
  unfold SF64add, SFadd.
  destruct a as [sa|sa| |sa ma ea], b as [sb|sb| |sb mb eb]; simpl;
    intros Ha Hb; subst; try tauto; try reflexivity.
  - now destruct sa, sb.
  - apply signless_normalize. simpl. lia.
Qed.

Lemma signless_mul a b :
  signless a -> signless b -> signless (SF64mul a b).
Proof.
  unfold SF64mul, SFmul.
  destruct a as [sa|sa| |sa ma ea], b as [sb|sb| |sb mb eb]; simpl;
    intros Ha Hb; subst; try tauto; try reflexivity.
  apply signless_round_aux.
Qed.

Lemma signless_spec x : signless (Prim2SF x) <-> nanOrNonNegative x.
Proof.
  unfold nanOrNonNegative, nonNegative. rewrite isNaN_spec, leb_spec, Prim2SF_zero.
  unfold SFleb. destruct (Prim2SF x) as [s|s| |s m e]; simpl.
  - tauto.
  - destruct s; split; intro H; try discriminate; auto.
    destruct H; discriminate.
  - tauto.
  - destruct s; split; intro H; try discriminate; auto.
    destruct H; discriminate.
Qed.

Lemma signless_roundDecimal d k : signless (Prim2SF (roundDecimal false d k)).
Proof.
  unfold roundDecimal. destruct d as [|m|m]; try exact I.
  destruct (0 <=? k)%Z eqn:Hk.
  - apply signless_SF2Prim, signless_normalize.
    apply Z.leb_le in Hk. apply Z.mul_nonneg_nonneg; [lia|].
    now apply Z.pow_nonneg.
  - destruct (SFdiv_core_binary _ _ _ _ _ _) as [[q e] l].
    apply signless_SF2Prim, signless_round_aux.
Qed.

(** The sign of a literal is read off its first character. *)
Lemma signOf_minus (t : jsstring) neg u :
  match t with
  | 43%N :: r => (false, r)
  | 45%N :: r => (true, r)
  | _ => (false, t)
  end = (neg, u) ->
  neg = true -> exists r, t = 45%N :: r.
Proof.
  intros H ->. destruct t as [|c r]; [discriminate|].
  destruct c as [|p]; [discriminate|].
  do 6 (destruct p as [p|p|]; try discriminate).
  now exists r.
Qed.

(** A string that does not start with a minus sign, white space set
    aside, is read as [NaN] or as a number that is at least zero. *)
Lemma signless_StringToNumber s :
  (forall r, trim s <> 45%N :: r) -> signless (Prim2SF (StringToNumber s)).
Proof.
  intro Hhead. unfold StringToNumber.
  destruct (trim s) as [|c r] eqn:Ht; [exact I|].
  destruct (nonDecimalIntegerLiteral (c :: r)) as [n|];
    [apply signless_roundDecimal|].
  destruct (match c :: r with
            | 43%N :: r0 => (false, r0)
            | 45%N :: r0 => (true, r0)
            | _ => (false, c :: r)
            end) as [neg u] eqn:Hsign.
  destruct neg.
  - destruct (signOf_minus (c :: r) _ _ Hsign eq_refl) as (r' & Heq).
    now apply Hhead in Heq.
  - destruct (strUnsignedDecimalLiteral u) as [[|d k]|];
      [reflexivity | apply signless_roundDecimal | exact I].
Qed.

Lemma numeralChar_plain c :
  numeralChar c = true -> isWhiteSpace c = false /\ c <> 45%N.
Proof.
  unfold numeralChar, isDigit. intro H.
  rewrite !orb_true_iff, andb_true_iff, !N.eqb_eq, !N.leb_le in H.
  split; [|lia].
  apply not_true_is_false. unfold isWhiteSpace. intro Hws.
  rewrite !orb_true_iff, andb_true_iff, !N.eqb_eq, !N.leb_le in Hws. lia.
Qed.

Lemma trimStart_plain s :
  forallb numeralChar s = true -> trimStart s = s.
Proof.
  destruct s as [|c r]; simpl; [reflexivity|].
  intro H. apply andb_prop in H as (Hc & _).
  apply numeralChar_plain in Hc as (-> & _). reflexivity.
Qed.

Lemma trim_plain s : forallb numeralChar s = true -> trim s = s.
Proof.
  intro H. unfold trim, trimEnd. rewrite (trimStart_plain s) by assumption.
  rewrite trimStart_plain; [apply rev_involutive|].
  rewrite forallb_forall in *. intros c Hc. apply H. now apply in_rev.
Qed.

Lemma signless_numeral s :
  forallb numeralChar s = true -> signless (Prim2SF (StringToNumber s)).
Proof.
  intro H. apply signless_StringToNumber. rewrite trim_plain by assumption.
  intros r ->. simpl in H. discriminate.
Qed.

Lemma numeral_uint u :
  forallb numeralChar (lit (NilEmpty.string_of_uint u)) = true.
Proof. induction u; simpl; auto. Qed.

Lemma numeral_decimalString n : forallb numeralChar (decimalString n) = true.
Proof.
  unfold decimalString, NilZero.string_of_uint.
  destruct (N.to_uint (Z.to_N n)) eqn:Hu; try reflexivity;
    rewrite <- Hu at 1; try (rewrite Hu; apply numeral_uint).
Qed.

Lemma numeral_app a b :
  forallb numeralChar a = true -> forallb numeralChar b = true ->
  forallb numeralChar (a ++ b) = true.
Proof. intros Ha Hb. now rewrite forallb_app, Ha, Hb. Qed.

Lemma numeral_sub (a b : jsstring) :
  incl a b -> forallb numeralChar b = true -> forallb numeralChar a = true.
Proof.
  intros Hincl Hb. rewrite forallb_forall in *. intros c Hc. now apply Hb, Hincl.
Qed.

Lemma incl_firstn {A} k (l : list A) : incl (firstn k l) l.
Proof.
  intros c Hc. rewrite <- (firstn_skipn k l). apply in_or_app. now left.
Qed.

Lemma incl_skipn {A} k (l : list A) : incl (skipn k l) l.
Proof.
  intros c Hc. rewrite <- (firstn_skipn k l). apply in_or_app. now right.
Qed.

Lemma numeral_fixedDigits n f : forallb numeralChar (fixedDigits n f) = true.
Proof.
  unfold fixedDigits.
  set (m := if (_ <=? f)%nat then _ else _).
  assert (Hm : forallb numeralChar m = true).
  { unfold m. destruct (_ <=? f)%nat; [|apply numeral_decimalString].
    apply numeral_app; [|apply numeral_decimalString].
    apply forallb_forall. intros c Hc. apply repeat_spec in Hc. now subst. }
  destruct f; [assumption|].
  repeat apply numeral_app; try reflexivity.
  - apply (numeral_sub _ m); [apply incl_firstn | assumption].
  - apply (numeral_sub _ m); [apply incl_skipn | assumption].
Qed.

Lemma numeral_toStringLarge X x : forallb numeralChar (toStringLarge X x) = true.
Proof.
  unfold toStringLarge.
  destruct (shortestDigits _ _ _ _ _) as [s n].
  pose proof (numeral_decimalString s) as Hs.
  destruct (decimalString s) as [|d [|d' r]]; [reflexivity | |].
  - simpl in Hs. apply andb_prop in Hs as (Hd & _).
    simpl. rewrite Hd. apply numeral_decimalString.
  - repeat apply numeral_app; try reflexivity; try apply numeral_decimalString.
    + simpl in Hs. apply andb_prop in Hs as (Hd & _). simpl. now rewrite Hd.
    + simpl in Hs. apply andb_prop in Hs as (_ & Hr). exact Hr.
Qed.

(** Rounding keeps a number without sign without sign. *)
Lemma signless_roundTo f x :
  signless (Prim2SF x) -> signless (Prim2SF (roundTo f x)).
Proof.
  unfold roundTo, toFixed. destruct (Prim2SF x) as [s|s| |s m e]; simpl.
  - intros _. apply signless_numeral, numeral_fixedDigits.
  - intros ->. reflexivity.
  - intros _. exact I.
  - intros ->. apply signless_numeral. simpl.
    destruct (Z.leb _ _); [apply numeral_toStringLarge | apply numeral_fixedDigits].
Qed.

Lemma signless_fold l : forall acc,
  signless (Prim2SF acc) ->
  (forall x, In x l -> signless (Prim2SF x)) ->
  signless (Prim2SF (fold_left PrimFloat.add l acc)).
Proof.
  induction l as [|y l IH]; intros acc Hacc Hl; simpl; [assumption|].
  apply IH.
  - rewrite add_spec. apply signless_add; [assumption|]. apply Hl. now left.
  - intros x Hx. apply Hl. now right.
Qed.

(** X13. When [validate] reports no error, the total [parse] returns is
    never below zero: it is [NaN] (as for the price [Infinity] with the
    quantity [0]) or at least zero. *)
Theorem parse_total_not_negative path w contents :
  files w path = Some contents ->
  validate contents = Return [] ->
  exists result w',
    parse path w = (Return result, w')
    /\ nanOrNonNegative (total result).
Proof.
  intros Hfile Hval.
  rewrite (parse_cases path w contents Hfile), Hval. cbv zeta.
  eexists. eexists. split; [reflexivity|]. simpl total.
  apply signless_spec, signless_roundTo. rewrite calcTotal_fold.
  apply signless_fold; [exact I|].
  intros x Hx. apply in_map_iff in Hx as (item & <- & Hitem).
  apply itemsFrom_in in Hitem as (i & line & Hnth & ->).
  destruct (validate_ok_rows contents Hval) as (h & _ & Hrows).
  destruct (rowErrors_nil_cells i line (Hrows i line Hnth))
    as (c0 & c1 & c2 & extra & Hcells & _ & Hprice & Hquantity).
  rewrite (itemOf_cells line _ c0 c1 c2 extra Hcells).
  change (signless (Prim2SF (StringToNumber c1 * StringToNumber c2)%float)).
  rewrite mul_spec.
  apply signless_mul; apply signless_spec; right; now apply not_negative.
Qed.

Lemma parse_total_not_negative_witness :
  exists result w',
    parse [] (Tests.mocked Tests.correctData) = (Return result, w')
    /\ nanOrNonNegative (total result).
Proof.
  exact (parse_total_not_negative [] (Tests.mocked Tests.correctData)
           Tests.correctData eq_refl ltac:(vm_compute; reflexivity)).
Defined.

(** X14. A file with a valid header line and no body line is an empty
    cart: [parse] returns no item and the total [0], takes no
    identifier and writes nothing. *)
Theorem parse_header_only path w contents headersLine :
  files w path = Some contents ->
  nonEmptyLines contents = [headersLine] ->
  validHeader headersLine ->
  parse path w = (Return {| items := []; total := 0%float |}, w).
Proof.
  intros Hfile Hlines Hheader.
  assert (Hval : validate contents = Return []).
  { rewrite validate_lines, Hlines. apply validHeader_iff in Hheader.
    simpl bodyErrorsFrom. rewrite !app_assoc, app_nil_r, <- !app_assoc.
    now rewrite Hheader. }
  rewrite (parse_cases path w contents Hfile), Hval, Hlines. cbv zeta.
  simpl. now rewrite afterIds_0.
Qed.

Lemma parse_header_only_witness :
  parse [] (Tests.mocked (Tests.header ++ [LF]))
  = (Return {| items := []; total := 0%float |},
     Tests.mocked (Tests.header ++ [LF])).
Proof.
  exact (parse_header_only [] (Tests.mocked (Tests.header ++ [LF]))
           (Tests.header ++ [LF]) Tests.header eq_refl
           ltac:(vm_compute; reflexivity) ltac:(vm_compute; reflexivity)).
Defined.



(** X16. The errors at a row are those of its line and its index alone:
    two files that have the same line at the same index of their bodies
    get the same errors at that row, whatever their headers and their
    other lines. *)
Theorem validate_row_local c1 c2 h1 h2 body1 body2 i line :
  nonEmptyLines c1 = h1 :: body1 ->
  nonEmptyLines c2 = h2 :: body2 ->
  nth_error body1 i = Some line ->
  nth_error body2 i = Some line ->
  exists errors1 errors2,
    validate c1 = Return errors1
    /\ validate c2 = Return errors2
    /\ atRow (Z.of_nat i + 1) errors1 = atRow (Z.of_nat i + 1) errors2.
Proof.
  intros H1 H2 Hn1 Hn2.
  destruct (validate_row c1 h1 body1 i line H1 Hn1) as (e1 & Hv1 & Hr1 & _).
  destruct (validate_row c2 h2 body2 i line H2 Hn2) as (e2 & Hv2 & Hr2 & _).
  exists e1, e2. repeat split; try assumption. now rewrite Hr1, Hr2.
Qed.

Lemma validate_row_local_witness :
  exists errors1 errors2,
    validate Tests.negativeValue = Return errors1
    /\ validate (Tests.wrongHeaderLine ++ [LF] ++ Tests.negativeRow)
       = Return errors2
    /\ atRow 1 errors1 = atRow 1 errors2.
Proof.
  exact (validate_row_local Tests.negativeValue
           (Tests.wrongHeaderLine ++ [LF] ++ Tests.negativeRow)
           Tests.header Tests.wrongHeaderLine
           [Tests.negativeRow; Tests.positiveRow] [Tests.negativeRow]
           0 Tests.negativeRow
           ltac:(vm_compute; reflexivity) ltac:(vm_compute; reflexivity)
           eq_refl eq_refl).
Defined.

(* ================================================================== *)
(** * The further properties at the inputs of the tests *)
(* ================================================================== *)

Lemma validate_error_positions_witness :
  (etype Tests.shortRowError = HEADER /\ row Tests.shortRowError = 0%Z
   /\ (0 <= column Tests.shortRowError < 3)%Z)
  \/ ((1 <= row Tests.shortRowError <= 1)%Z
      /\ ((etype Tests.shortRowError = ROW
           /\ column Tests.shortRowError = (-1)%Z)
          \/ (etype Tests.shortRowError = CELL
              /\ (0 <= column Tests.shortRowError < 3)%Z))).
Proof.
  exact (validate_error_positions Tests.shortRow [Tests.shortRowError]
           Tests.shortRowError ltac:(vm_compute; reflexivity)
           (or_introl eq_refl)).
Defined.

Lemma validate_errors_sorted_witness :
  exists errors,
    validate (Tests.header ++ [LF] ++ lit ",9.00,-10" ++ [LF] ++ lit "x")
    = Return errors
    /\ List.length errors = 3
    /\ StronglySorted positionLt errors.
Proof.
  eexists. split; [vm_compute; reflexivity|]. split; [reflexivity|].
  apply (validate_errors_sorted
           (Tests.header ++ [LF] ++ lit ",9.00,-10" ++ [LF] ++ lit "x")).
  vm_compute. reflexivity.
Defined.

Lemma validate_header_body_apart_witness :
  exists errors1 errors2,
    validate Tests.negativeValue = Return errors1
    /\ validate (Tests.wrongHeaderLine ++ [LF] ++ Tests.negativeRow
                 ++ [LF] ++ Tests.positiveRow) = Return errors2
    /\ inBody errors1 = inBody errors2.
Proof.
  destruct (validate_header_body_apart Tests.negativeValue
              (Tests.wrongHeaderLine ++ [LF] ++ Tests.negativeRow
               ++ [LF] ++ Tests.positiveRow)
              Tests.header Tests.wrongHeaderLine
              [Tests.negativeRow; Tests.positiveRow]
              [Tests.negativeRow; Tests.positiveRow]
              ltac:(vm_compute; reflexivity) ltac:(vm_compute; reflexivity))
    as (e1 & e2 & Hv1 & Hv2 & _ & _ & Hbody).
  exists e1, e2. split; [exact Hv1|]. split; [exact Hv2|]. exact (Hbody eq_refl).
Defined.

